(** * SearchablePosts: the searchable, incrementally revealed post list

    A shallow embedding of the [SearchablePosts] client component
    (search box, Fuse.js index, page window, delayed "load more" driven
    by an intersection observer), and the properties of its state
    machine and of what it renders.

    Layout of the development:
    - [JsString]: JavaScript strings as UTF-16 code units, [trim], truthiness;
    - [Fuse]: the interface of the fuzzy-search library the component
      configures (the library itself is a dependency, not part of the
      component: it is a parameter of everything below);
    - [SearchablePosts]: the component: derived values, event handlers,
      the view it returns, and the hook runtime that drives it;
    - [Home], [BlogPage], [CodeBlock], [Giscus]: the pages and
      components around the list;
    - theorems. *)

From Stdlib Require Import String Ascii DecimalString.
From Stdlib Require Import List ZArith NArith QArith Bool Sorted Lia.
From Stdlib Require Import Permutation.
Import ListNotations.

Set Implicit Arguments.

(* ------------------------------------------------------------------ *)
(** ** JavaScript strings *)

Module JsString.

(** A JavaScript string is a sequence of UTF-16 code units. *)
Definition t := list N.

(** Source literals are ASCII: one code unit per character. *)
Fixpoint of_string (s : string) : t :=
  match s with
  | EmptyString => []
  | String c rest => N_of_ascii c :: of_string rest
  end.

(** [===] on strings: the same code units. *)
Fixpoint eqb (a b : t) : bool :=
  match a, b with
  | [], [] => true
  | x :: a', y :: b' => (x =? y)%N && eqb a' b'
  | _, _ => false
  end.

(** ECMAScript [WhiteSpace] and [LineTerminator] code points, the
    characters [String.prototype.trim] strips. *)
Definition is_white_space (c : N) : bool :=
  ((c =? 0x9) || (c =? 0xA) || (c =? 0xB) || (c =? 0xC) || (c =? 0xD)
   || (c =? 0x20) || (c =? 0xA0) || (c =? 0x1680)
   || ((0x2000 <=? c) && (c <=? 0x200A))
   || (c =? 0x2028) || (c =? 0x2029) || (c =? 0x202F) || (c =? 0x205F)
   || (c =? 0x3000) || (c =? 0xFEFF))%N.

Fixpoint trimStart (s : t) : t :=
  match s with
  | [] => []
  | c :: rest => if is_white_space c then trimStart rest else s
  end.

Definition trimEnd (s : t) : t := rev (trimStart (rev s)).

(** [s.trim()] *)
Definition trim (s : t) : t := trimEnd (trimStart s).

(** Truthiness of a string: only the empty string is falsy. *)
Definition truthy (s : t) : bool :=
  match s with [] => false | _ :: _ => true end.

(** "Empty or consisting only of whitespace". *)
Definition blank (s : t) : bool := forallb is_white_space s.

End JsString.

Definition jsstring : Type := JsString.t.

(** [`${n}`] for an array length. *)
Definition string_of_nat (n : nat) : string :=
  NilEmpty.string_of_uint (Nat.to_uint n).

(* ------------------------------------------------------------------ *)
(** ** Post records *)

Record Post := {
  path : jsstring;            (* _meta.path *)
  title : jsstring;
  description : jsstring;
  date : jsstring;
  author : jsstring;
  tags : list jsstring;
  image : option jsstring
}.

(* ------------------------------------------------------------------ *)
(** ** The Fuse.js interface

    [new Fuse(list, options)] and [fuse.search(pattern)].  The matching
    and scoring algorithm is the library's; the component only chooses
    the options and consumes the ranked results, so the library is a
    parameter ([Engine]) and what the component relies on is written
    down as a contract ([respects]).  Scores are rationals in [0, 1],
    [0] a perfect match. *)

Module Fuse.

Record Key := { name : string; weight : Q }.

Record Options := {
  keys : list Key;
  threshold : Q;
  includeScore : bool
}.

Record Index := { docs : list Post; options : Options }.

Record Result := { item : Post; refIndex : nat; score : Q }.

Record Engine := {
  (** [fuse.search(pattern)] *)
  search : Index -> jsstring -> list Result;
  (** how far the value of one key of one record is from the pattern,
      when the pattern is found in it at all *)
  field_score : Index -> string -> Post -> jsstring -> option Q
}.

(** A result counts because one of the configured keys matched no
    further from the pattern than the threshold allows. *)
Definition within (E : Engine) (ix : Index) (q : jsstring) (p : Post) : Prop :=
  exists k s, In k (keys (options ix))
              /\ field_score E ix (name k) p q = Some s
              /\ (s <= threshold (options ix))%Q.

(** Best match first: scores never decrease along the result list. *)
Definition ranked (rs : list Result) : Prop :=
  StronglySorted (fun a b => (score a <= score b)%Q) rs.

(** The contract of [search] at one index and pattern: the results are
    distinct records of the indexed list, each matched within the
    threshold, ordered best first. *)
Record respects (E : Engine) (ix : Index) (q : jsstring) : Prop := {
  drawn : Forall (fun r => nth_error (docs ix) (refIndex r) = Some (item r))
                 (search E ix q);
  distinct : NoDup (map refIndex (search E ix q));
  matched : Forall (fun r => within E ix q (item r)) (search E ix q);
  best_first : ranked (search E ix q)
}.

End Fuse.

(* ------------------------------------------------------------------ *)
(** ** The component *)

Module SearchablePosts.

Definition POSTS_PER_PAGE : Z := 4.

(** The three [useState] cells. *)
Record State := {
  searchQuery : jsstring;
  currentPage : Z;
  isLoading : bool
}.

(** A call of one of the three setters.  [setCurrentPage] is called both
    with a value and with an updater; a value is the constant updater. *)
Inductive Update :=
| SetSearchQuery (value : jsstring)
| SetCurrentPage (updater : Z -> Z)
| SetIsLoading (value : bool).

(** What a handler does besides returning: setter calls, and
    [await new Promise(resolve => setTimeout(resolve, ms))] followed by
    the rest of the handler, which here is a sequence of setter calls. *)
Inductive Effect :=
| Dispatch (u : Update)
| SetTimeout (ms : N) (rest : list Update).

(** What the component returns, reduced to the conditional parts of the
    JSX and the data they show. *)
Inductive Element :=
| NoResults (query : jsstring)
| PostCard (post : Post)
| LoadingSpinner
| Sentinel (counter : string)
| EndMessage (total : nat).

(** [arr.slice(0, end)] for an integer [end]: a negative [end] counts
    from the end of the array. *)
Definition slice0 (A : Type) (arr : list A) (e : Z) : list A :=
  let len := Z.of_nat (length arr) in
  let final := if (e <? 0)%Z then Z.max (len + e) 0 else Z.min e len in
  firstn (Z.to_nat final) arr.

Section Component.

Variable E : Fuse.Engine.
Variable posts : list Post.

Definition fuseOptions : Fuse.Options :=
  {| Fuse.keys :=
       [ {| Fuse.name := "title"; Fuse.weight := 4 # 10 |};
         {| Fuse.name := "description"; Fuse.weight := 3 # 10 |};
         {| Fuse.name := "tags"; Fuse.weight := 2 # 10 |};
         {| Fuse.name := "author"; Fuse.weight := 1 # 10 |} ];
     Fuse.threshold := 3 # 10;
     Fuse.includeScore := true |}.

Definition fuse : Fuse.Index :=
  {| Fuse.docs := posts; Fuse.options := fuseOptions |}.

Definition filteredPosts (st : State) : list Post :=
  if negb (JsString.truthy (JsString.trim (searchQuery st))) then posts
  else map Fuse.item (Fuse.search E fuse (searchQuery st)).

Definition displayedPosts (st : State) : list Post :=
  let endIndex := (currentPage st * POSTS_PER_PAGE)%Z in
  slice0 (filteredPosts st) endIndex.

Definition hasMorePosts (st : State) : bool :=
  (length (displayedPosts st) <? length (filteredPosts st))%nat.

(** The statements of [loadMorePosts] after the [await]. *)
Definition loadMorePosts_resume : list Update :=
  [SetCurrentPage (fun prev => (prev + 1)%Z); SetIsLoading false].

Definition loadMorePosts (st : State) : list Effect :=
  if isLoading st || negb (hasMorePosts st) then []
  else [Dispatch (SetIsLoading true); SetTimeout 2000 loadMorePosts_resume].

(** The [onChange] callback given to [useInView]. *)
Definition onChange_inView (st : State) (inView : bool) : list Effect :=
  if inView && hasMorePosts st && negb (isLoading st) then loadMorePosts st
  else [].

(** The [onChange] handler of the search input. *)
Definition onChange_input (value : jsstring) : list Effect :=
  [Dispatch (SetSearchQuery value)].

(** The body of the [useMemo] whose dependency is [searchQuery]. *)
Definition reset_pagination : list Effect :=
  [Dispatch (SetCurrentPage (fun _ => 1%Z))].

Definition counter (st : State) : string :=
  (string_of_nat (length (displayedPosts st)) ++ " of "
   ++ string_of_nat (length (filteredPosts st)) ++ " articles")%string.

Definition render (st : State) : list Element :=
  (if (length (filteredPosts st) =? 0)%nat
      && JsString.truthy (JsString.trim (searchQuery st))
   then [NoResults (searchQuery st)] else [])
  ++ map PostCard (displayedPosts st)
  ++ (if isLoading st then [LoadingSpinner] else [])
  ++ (if hasMorePosts st && negb (isLoading st)
      then [Sentinel (counter st)] else [])
  ++ (if negb (hasMorePosts st)
         && (0 <? length (displayedPosts st))%nat
         && negb (JsString.truthy (JsString.trim (searchQuery st)))
      then [EndMessage (length (filteredPosts st))] else []).

End Component.

(** *** The hook runtime

    What React does around the component function, as far as this
    component uses it:
    - the cells persist between renders, and a handler is a closure of
      the latest render: it reads the cells as that render saw them.
      The component renders again when a callback (an observer callback,
      an input event, a timer) has returned; the observer hands its
      callback a list of entries, so the several reports of one
      callback all run the [onChange] of the same render;
    - a setter call on a mounted component updates its cell; on an
      unmounted component it is dropped;
    - a [useMemo] runs its function when its dependency differs from the
      one of the previous render (always on the first render), and a
      setter called from it takes effect before the render is committed;
    - timers belong to the page, not to the component: nothing removes
      them at unmount, and the component registers no cleanup. *)

Record Instance := {
  hooks : State;
  resetDeps : option jsstring;   (* last dependency of the pagination reset *)
  mounted : bool;
  clock : N;                     (* milliseconds *)
  timers : list (N * list Update)   (* due time, rest of the handler *)
}.

Definition apply_update (st : State) (u : Update) : State :=
  match u with
  | SetSearchQuery v =>
      {| searchQuery := v; currentPage := currentPage st;
         isLoading := isLoading st |}
  | SetCurrentPage f =>
      {| searchQuery := searchQuery st; currentPage := f (currentPage st);
         isLoading := isLoading st |}
  | SetIsLoading b =>
      {| searchQuery := searchQuery st; currentPage := currentPage st;
         isLoading := b |}
  end.

Definition dispatch (i : Instance) (u : Update) : Instance :=
  if mounted i then
    {| hooks := apply_update (hooks i) u; resetDeps := resetDeps i;
       mounted := mounted i; clock := clock i; timers := timers i |}
  else i.

Definition perform (i : Instance) (e : Effect) : Instance :=
  match e with
  | Dispatch u => dispatch i u
  | SetTimeout ms rest =>
      {| hooks := hooks i; resetDeps := resetDeps i; mounted := mounted i;
         clock := clock i;
         timers := timers i ++ [((clock i + ms)%N, rest)] |}
  end.

Definition deps_changed (i : Instance) : bool :=
  match resetDeps i with
  | None => true
  | Some d => negb (JsString.eqb d (searchQuery (hooks i)))
  end.

(** One render of a mounted component: the pagination reset runs if the
    query is not the one of the previous render. *)
Definition render_pass (i : Instance) : Instance :=
  if mounted i && deps_changed i then
    let i' := fold_left perform reset_pagination i in
    {| hooks := hooks i'; resetDeps := Some (searchQuery (hooks i'));
       mounted := mounted i'; clock := clock i'; timers := timers i' |}
  else i.

Definition mount : Instance :=
  render_pass
    {| hooks := {| searchQuery := []; currentPage := 1; isLoading := false |};
       resetDeps := None; mounted := true; clock := 0; timers := [] |}.

Inductive Event :=
| InView (inView : bool)       (* the observer reports on the sentinel *)
| InViewEntries (inViews : list bool)
                               (* one observer callback with several reports *)
| Input (value : jsstring)     (* the user edits the search box *)
| Elapse (ms : N)              (* time passes *)
| Unmount.

Section Runtime.

Variable E : Fuse.Engine.
Variable posts : list Post.

(** Run a handler, then render. *)
Definition handle (i : Instance) (effects : list Effect) : Instance :=
  render_pass (fold_left perform effects i).

Definition due (now : N) (tm : N * list Update) : bool := (fst tm <=? now)%N.

(** Time passes: the timers that have come due run, in the order they
    were set, each followed by a render. *)
Definition elapse (i : Instance) (ms : N) : Instance :=
  let now := (clock i + ms)%N in
  fold_left
    (fun j tm => render_pass (fold_left dispatch (snd tm) j))
    (filter (due now) (timers i))
    {| hooks := hooks i; resetDeps := resetDeps i; mounted := mounted i;
       clock := now;
       timers := filter (fun tm => negb (due now tm)) (timers i) |}.

Definition step (i : Instance) (ev : Event) : Instance :=
  match ev with
  | InView inView =>
      if mounted i then handle i (onChange_inView E posts (hooks i) inView)
      else i
  | InViewEntries inViews =>
      (* every report runs the closure of the last render, [hooks i] *)
      if mounted i
      then handle i (flat_map (onChange_inView E posts (hooks i)) inViews)
      else i
  | Input value =>
      if mounted i then handle i (onChange_input value) else i
  | Elapse ms => elapse i ms
  | Unmount =>
      {| hooks := hooks i; resetDeps := resetDeps i; mounted := false;
         clock := clock i; timers := timers i |}
  end.

Definition run (i : Instance) (trace : list Event) : Instance :=
  fold_left step trace i.

Inductive reachable : Instance -> Prop :=
| reachable_mount : reachable mount
| reachable_step i ev : reachable i -> reachable (step i ev).

(** The values the component computes in a render of [i]. *)
Definition matched (i : Instance) : list Post := filteredPosts E posts (hooks i).
Definition visible (i : Instance) : list Post := displayedPosts E posts (hooks i).
Definition hasMore (i : Instance) : bool := hasMorePosts E posts (hooks i).
Definition page (i : Instance) : Z := currentPage (hooks i).
Definition view (i : Instance) : list Element := render E posts (hooks i).

End Runtime.

(** The instance is as a render left it: the pagination reset has seen
    the current query. *)
Definition committed (i : Instance) : Prop :=
  resetDeps i = Some (searchQuery (hooks i)).

(** What holds of every instance the events can produce: the page is
    positive, and while the component is mounted the loading flag says
    whether reveal timers are pending.  There may be several: one for
    each report that passed the guard in the callback that set the
    flag, all due at the same time. *)
Record consistent (i : Instance) : Prop := {
  is_committed : committed i;
  page_positive : (1 <= currentPage (hooks i))%Z;
  idle_no_timer :
    mounted i = true -> isLoading (hooks i) = false -> timers i = [];
  loading_timers :
    mounted i = true -> isLoading (hooks i) = true ->
    exists d n, timers i = repeat (d, loadMorePosts_resume) (S n)
                /\ (clock i < d <= clock i + 2000)%N
}.

End SearchablePosts.

(* ------------------------------------------------------------------ *)
(** ** Sample data

    Six of the posts of the blog (front matter of the files under
    [posts/]), collections of any size with numbered paths, and an
    instance of the search interface to run the component with.  That
    instance is not fuse.js: a key matches only when one of its values
    is the pattern itself, with score [0].  It stands in where an
    engine is needed and the outcome of a search does not matter. *)

Module Sample.

Local Open Scope string_scope.

Definition js : string -> jsstring := JsString.of_string.

Definition mkPost (p t d dt : string) (tg : list string) (img : string) : Post :=
  {| path := js p; title := js t; description := js d; date := js dt;
     author := js "Tech Blogger"; tags := map js tg; image := Some (js img) |}.

Definition posts : list Post :=
  [ mkPost "advanced-react-hooks"
      "Advanced React Hooks: Beyond useState and useEffect"
      "Explore powerful React hooks like useReducer, useContext, and custom hooks to build better applications"
      "2024-01-25" ["react"; "hooks"; "javascript"; "frontend"] "/next.svg";
    mkPost "graphql-vs-rest"
      "GraphQL vs REST: Choosing the Right API Architecture"
      "Compare GraphQL and REST APIs to make informed decisions for your next project"
      "2024-02-25" ["graphql"; "rest"; "api"; "backend"; "architecture"] "/globe.svg";
    mkPost "modern-css-techniques"
      "Modern CSS Techniques: Grid, Flexbox, and Beyond"
      "Master modern CSS layout techniques including CSS Grid, Flexbox, and custom properties"
      "2024-02-05" ["css"; "frontend"; "layout"; "design"] "/globe.svg";
    mkPost "nodejs-performance-optimization"
      "Node.js Performance Optimization: Tips and Tricks"
      "Learn how to optimize Node.js applications for better performance and scalability"
      "2024-02-10" ["nodejs"; "javascript"; "performance"; "backend"] "/window.svg";
    mkPost "react-server-components"
      "React Server Components: The Future of React"
      "Understanding React Server Components and how they revolutionize React applications"
      "2024-02-15" ["react"; "server-components"; "nextjs"; "performance"] "/next.svg";
    mkPost "typescript-best-practices"
      "TypeScript Best Practices for Modern Development"
      "Essential TypeScript patterns and practices to write safer, more maintainable code"
      "2024-01-30" ["typescript"; "javascript"; "best-practices"; "development"] "/file.svg" ].

(** [n] posts, with the paths post-1 ... post-n. *)
Definition numbered (n : nat) : list Post :=
  map (fun k => mkPost ("post-" ++ string_of_nat k) "A post" "About something"
                  "2024-03-01" ["notes"] "/file.svg")
      (seq 1 n).

Definition values (key : string) (p : Post) : list jsstring :=
  if String.eqb key "title" then [title p]
  else if String.eqb key "description" then [description p]
  else if String.eqb key "tags" then tags p
  else if String.eqb key "author" then [author p]
  else [].

Definition exact_score (key : string) (p : Post) (q : jsstring) : option Q :=
  if existsb (JsString.eqb q) (values key p) then Some 0%Q else None.

Definition exact_hit (o : Fuse.Options) (p : Post) (q : jsstring) : bool :=
  existsb
    (fun k => match exact_score (Fuse.name k) p q with
              | Some s => Qle_bool s (Fuse.threshold o)
              | None => false
              end)
    (Fuse.keys o).

Fixpoint exact_scan (o : Fuse.Options) (q : jsstring) (idx : nat)
    (ps : list Post) : list Fuse.Result :=
  match ps with
  | [] => []
  | p :: rest =>
      ((if exact_hit o p q
        then [ {| Fuse.item := p; Fuse.refIndex := idx; Fuse.score := 0 |} ]
       else [])
      ++ exact_scan o q (S idx) rest)%list
  end.

Definition exact : Fuse.Engine :=
  {| Fuse.search := fun ix q => exact_scan (Fuse.options ix) q 0 (Fuse.docs ix);
     Fuse.field_score := fun _ key p q => exact_score key p q |}.

End Sample.

(* ------------------------------------------------------------------ *)
(** ** The rest of the site

    The pages around the list: the home page that sorts the posts and
    hands them to the list, the article page with its static parameters
    and metadata, and the code block with its copy button. *)

(** *** More string operations *)

Module JsStringOps.

Fixpoint startsWith (s prefix : jsstring) : bool :=
  match prefix, s with
  | [], _ => true
  | _ :: _, [] => false
  | c :: prefix', d :: s' => (c =? d)%N && startsWith s' prefix'
  end.

(** [s.includes(searchString)] *)
Fixpoint includes (s searchString : jsstring) : bool :=
  startsWith s searchString
  || match s with
     | [] => false
     | _ :: s' => includes s' searchString
     end.

End JsStringOps.

(** *** Traces and projections of the list component *)

Module Scrolling.
Import SearchablePosts.

(** The sentinel comes into view and the delay passes. *)
Definition reveal_cycle : list Event := [InView true; Elapse 2000].


(** The posts of the cards of a view, in the order of the view. *)
Definition cards (v : list Element) : list Post :=
  flat_map (fun e => match e with PostCard p => [p] | _ => [] end) v.

End Scrolling.

(** *** Post documents *)

Module Types.

(** [BlogPost] of lib/types.ts: the fields the list reads ([summary],
    with [_meta.path]) together with the rest of [_meta] and the
    compiled body. *)
Record BlogPost := {
  summary : Post;
  filePath : jsstring;
  directory : jsstring;
  mdx : jsstring
}.

End Types.

(** *** The home page *)

Module Home.
Import Types.

(** [arr.sort(comparefn)]: the sort is stable, and a comparator result
    that is not a number counts as 0.  For a consistent comparator the
    stable order is unique; it is computed here by insertion. *)
Section Sort.

Variable A : Type.
Variable comparefn : A -> A -> Z.

Fixpoint insert (x : A) (sorted : list A) : list A :=
  match sorted with
  | [] => [x]
  | y :: rest =>
      if (comparefn x y <=? 0)%Z then x :: sorted else y :: insert x rest
  end.

Definition sort (arr : list A) : list A := fold_right insert [] arr.

End Sort.

Section Page.

(** [new Date(s).getTime()], [None] for an invalid date. *)
Variable getTime : jsstring -> option Z.

(** [(a, b) => new Date(b.date).getTime() - new Date(a.date).getTime()] *)
Definition by_date (a b : BlogPost) : Z :=
  match getTime (date (summary b)), getTime (date (summary a)) with
  | Some tb, Some ta => (tb - ta)%Z
  | _, _ => 0%Z
  end.

Definition sortedPosts (allPosts : list BlogPost) : list BlogPost :=
  sort by_date allPosts.

(** The [posts] the home page passes to the list component. *)
Definition Home (allPosts : list BlogPost) : list Post :=
  map summary (sortedPosts allPosts).

Definition valid_date (b : BlogPost) : Prop :=
  getTime (date (summary b)) <> None.

(** The time of a post, for stating the order; 0 when the date is
    invalid. *)
Definition time_of (b : BlogPost) : Z :=
  match getTime (date (summary b)) with Some t => t | None => 0%Z end.

End Page.

End Home.

(** *** The article page *)

Module BlogPage.
Import Types.

Record StaticParams := { slug : jsstring }.

Module Metadata.
Record t := { title : jsstring; description : option jsstring }.
End Metadata.

Module Article.
Record t := {
  dateTime : jsstring;
  title : jsstring;
  description : jsstring;
  tags : list jsstring;
  code : jsstring            (* the body given to MDXContent *)
}.
End Article.

(** What the page function does: it returns the article, or calls
    [notFound()], which does not return. *)
Inductive Response :=
| notFound
| article (a : Article.t).

Definition generateStaticParams (allPosts : list BlogPost) : list StaticParams :=
  map (fun post => {| slug := path (summary post) |}) allPosts.

(** [allPosts.find((post) => post._meta.path === slug)] *)
Definition find_post (allPosts : list BlogPost) (slug : jsstring)
    : option BlogPost :=
  find (fun post => JsString.eqb (path (summary post)) slug) allPosts.

Definition generateMetadata (allPosts : list BlogPost) (slug : jsstring)
    : Metadata.t :=
  match find_post allPosts slug with
  | None =>
      {| Metadata.title := JsString.of_string "Post not found";
         Metadata.description := None |}
  | Some post =>
      {| Metadata.title := title (summary post);
         Metadata.description := Some (description (summary post)) |}
  end.

(** What the page shows of a post. *)
Definition article_of (post : BlogPost) : Article.t :=
  {| Article.dateTime := date (summary post);
     Article.title := title (summary post);
     Article.description := description (summary post);
     Article.tags := tags (summary post);
     Article.code := mdx post |}.

Definition BlogPost (allPosts : list BlogPost) (slug : jsstring) : Response :=
  match find_post allPosts slug with
  | None => notFound
  | Some post => article (article_of post)
  end.

End BlogPage.

(** *** The code block *)

Module CodeBlock.

(** What the component returns: the bare [pre], or the [pre] with the
    copy button and its label. *)
Inductive View :=
| Pre (className : option jsstring)
| PreWithCopy (className : option jsstring) (label : string).

(** [className?.includes("shiki")]: [None] when there is no class. *)
Definition isShikiBlock (className : option jsstring) : option bool :=
  match className with
  | None => None
  | Some c => Some (JsStringOps.includes c (JsString.of_string "shiki"))
  end.

(** Truthiness of [isShikiBlock]. *)
Definition is_shiki (className : option jsstring) : bool :=
  match isShikiBlock className with Some true => true | _ => false end.

Definition label (copied : bool) : string :=
  if copied then "Copied!"%string else "Copy code"%string.

Definition render (className : option jsstring) (copied : bool) : View :=
  if negb (is_shiki className) then Pre className
  else PreWithCopy className (label copied).

(** A mounted block: the [copied] cell, the timers set by [handleCopy]
    (each runs [setCopied(false)]), the clipboard writes that have been
    started and not yet settled, the text of the last write that
    succeeded, and the number of errors logged. *)
Record Instance := {
  copied : bool;
  clock : N;
  timers : list N;
  writing : list jsstring;
  clipboard : option jsstring;
  errors : nat
}.

Definition mount : Instance :=
  {| copied := false; clock := 0; timers := []; writing := [];
     clipboard := None; errors := 0 |}.

Inductive Event :=
| Click                   (* the copy button is clicked *)
| Settle (ok : bool)      (* the oldest pending write resolves or rejects *)
| Elapse (ms : N).

(** The number of clicks in a trace. *)
Definition clicks (trace : list Event) : nat :=
  length (filter (fun ev => match ev with Click => true | _ => false end) trace).

Section Block.

Variable className : option jsstring.
(** [preRef.current.textContent] *)
Variable textContent : jsstring.

(** [handleCopy] up to the [await]: the write of [textContent || ""]
    is started.  There is a button to click only on a shiki block, and
    then [preRef.current] is the [pre]. *)
Definition handleCopy_start (i : Instance) : Instance :=
  if is_shiki className then
    {| copied := copied i; clock := clock i; timers := timers i;
       writing := writing i ++ [textContent];
       clipboard := clipboard i; errors := errors i |}
  else i.

(** [handleCopy] after the [await]: [setCopied(true)] and the timer, or
    the [catch] branch. *)
Definition handleCopy_resume (i : Instance) (ok : bool) : Instance :=
  match writing i with
  | [] => i
  | text :: rest =>
      if ok then
        {| copied := true; clock := clock i;
           timers := timers i ++ [(clock i + 2000)%N];
           writing := rest; clipboard := Some text; errors := errors i |}
      else
        {| copied := copied i; clock := clock i; timers := timers i;
           writing := rest; clipboard := clipboard i;
           errors := S (errors i) |}
  end.

(** Time passes: each timer that has come due runs [setCopied(false)]. *)
Definition elapse (i : Instance) (ms : N) : Instance :=
  let now := (clock i + ms)%N in
  {| copied :=
       if existsb (fun due => (due <=? now)%N) (timers i) then false
       else copied i;
     clock := now;
     timers := filter (fun due => negb (due <=? now)%N) (timers i);
     writing := writing i; clipboard := clipboard i; errors := errors i |}.

Definition step (i : Instance) (ev : Event) : Instance :=
  match ev with
  | Click => handleCopy_start i
  | Settle ok => handleCopy_resume i ok
  | Elapse ms => elapse i ms
  end.

Definition run (i : Instance) (trace : list Event) : Instance :=
  fold_left step trace i.

Inductive reachable : Instance -> Prop :=
| reachable_mount : reachable mount
| reachable_step i ev : reachable i -> reachable (step i ev).

Definition view (i : Instance) : View := render className (copied i).

(** What holds of every instance the events can produce: every pending
    reset is due within 2000 ms, and the label is "Copied!" only while
    a reset is pending; whatever is being written or has been written
    is the text of the block; a block without the button stays as it
    was mounted. *)
Record sound (i : Instance) : Prop := {
  resets_due :
    Forall (fun due => (clock i < due <= clock i + 2000)%N) (timers i);
  copied_has_reset : copied i = true -> timers i <> [];
  writes_text : Forall (eq textContent) (writing i);
  clipboard_text : clipboard i = None \/ clipboard i = Some textContent;
  copied_on_clipboard : copied i = true -> clipboard i = Some textContent;
  plain_idle :
    is_shiki className = false ->
    writing i = [] /\ clipboard i = None /\ copied i = false
}.

End Block.

End CodeBlock.

(** *** The Giscus embed *)

Module Giscus.

Record Props := {
  repo : jsstring;
  repoId : jsstring;
  category : jsstring;
  categoryId : jsstring;
  mapping : option jsstring;     (* default "pathname" *)
  theme : option jsstring        (* default "light" *)
}.

Definition mapping_or_default (p : Props) : jsstring :=
  match mapping p with Some m => m | None => JsString.of_string "pathname" end.

Definition theme_or_default (p : Props) : jsstring :=
  match theme p with Some t => t | None => JsString.of_string "light" end.

Record Script := {
  src : jsstring;
  attributes : list (string * jsstring);   (* in the order they are set *)
  async : bool;
  crossOrigin : jsstring
}.

(** What the container [div] holds: scripts appended by the effect, and
    whatever else is put there (the loaded client inserts its frame). *)
Inductive Node :=
| ScriptNode (s : Script)
| Other (html : jsstring).

(** The script element the effect builds. *)
Definition script_of (p : Props) : Script :=
  {| src := JsString.of_string "https://giscus.app/client.js";
     attributes :=
       [ ("data-repo", repo p);
         ("data-repo-id", repoId p);
         ("data-category", category p);
         ("data-category-id", categoryId p);
         ("data-mapping", mapping_or_default p);
         ("data-strict", JsString.of_string "0");
         ("data-reactions-enabled", JsString.of_string "1");
         ("data-emit-metadata", JsString.of_string "0");
         ("data-input-position", JsString.of_string "bottom");
         ("data-theme", theme_or_default p);
         ("data-lang", JsString.of_string "en") ]%string;
     async := true;
     crossOrigin := JsString.of_string "anonymous" |}.

(** The effect ([ref.current] is the rendered [div]) and its cleanup,
    [ref.current.innerHTML = ""]. *)
Definition effect (p : Props) (container : list Node) : list Node :=
  container ++ [ScriptNode (script_of p)].

Definition cleanup (container : list Node) : list Node := [].

(** The dependency array of the effect. *)
Definition deps (p : Props) : list jsstring :=
  [repo p; repoId p; category p; categoryId p;
   mapping_or_default p; theme_or_default p].

Fixpoint same_deps (a b : list jsstring) : bool :=
  match a, b with
  | [], [] => true
  | x :: a', y :: b' => JsString.eqb x y && same_deps a' b'
  | _, _ => false
  end.

Record Instance := { props : Props; container : list Node }.

Definition mount (p : Props) : Instance :=
  {| props := p; container := effect p [] |}.

Inductive Event :=
| Rerender (p : Props)      (* the parent renders the embed with props [p] *)
| Inserted (html : jsstring).  (* something else is put in the container *)

(** A render with changed dependencies runs the cleanup of the previous
    effect and then the effect. *)
Definition step (i : Instance) (ev : Event) : Instance :=
  match ev with
  | Rerender p =>
      if same_deps (deps (props i)) (deps p)
      then {| props := p; container := container i |}
      else {| props := p; container := effect p (cleanup (container i)) |}
  | Inserted html =>
      {| props := props i; container := container i ++ [Other html] |}
  end.

Definition run (i : Instance) (trace : list Event) : Instance :=
  fold_left step trace i.

(** The scripts among the nodes of the container. *)
Definition scripts (nodes : list Node) : list Script :=
  flat_map (fun n => match n with ScriptNode s => [s] | Other _ => [] end) nodes.

End Giscus.

(** *** Sample site

    The sample posts as documents, and a reading of dates that covers
    the date-only ISO form YYYY-MM-DD of the posts (UTC midnight, in
    milliseconds).  It is not the engine's [Date]: an engine accepts
    more strings (date-times, some out-of-range days); here every other
    string counts as invalid. *)

Module SampleSite.
Import Types.

Definition digit (c : N) : option Z :=
  if ((48 <=? c) && (c <=? 57))%N then Some (Z.of_N c - 48)%Z else None.

Definition number (cs : list N) : option Z :=
  fold_left
    (fun acc c =>
       match acc, digit c with
       | Some n, Some d => Some (10 * n + d)%Z
       | _, _ => None
       end)
    cs (Some 0%Z).

Definition leap (y : Z) : bool :=
  ((y mod 4 =? 0) && (negb (y mod 100 =? 0) || (y mod 400 =? 0)))%Z.

Definition days_in_month (y m : Z) : Z :=
  if (m =? 2)%Z then (if leap y then 29 else 28)%Z
  else if ((m =? 4) || (m =? 6) || (m =? 9) || (m =? 11))%Z then 30%Z
  else 31%Z.

(** Days from 1970-01-01 to the given day of the civil calendar. *)
Definition days_from_civil (y m d : Z) : Z :=
  let y' := (if m <=? 2 then y - 1 else y)%Z in
  let era := (y' / 400)%Z in
  let yoe := (y' - era * 400)%Z in
  let doy := ((153 * ((m + 9) mod 12) + 2) / 5 + d - 1)%Z in
  let doe := (yoe * 365 + yoe / 4 - yoe / 100 + doy)%Z in
  (era * 146097 + doe - 719468)%Z.

Definition getTime (s : jsstring) : option Z :=
  match s with
  | [y1; y2; y3; y4; s1; m1; m2; s2; d1; d2] =>
      if ((s1 =? 45) && (s2 =? 45))%N then
        match number [y1; y2; y3; y4], number [m1; m2], number [d1; d2] with
        | Some y, Some m, Some d =>
            if ((1 <=? m) && (m <=? 12) && (1 <=? d)
                && (d <=? days_in_month y m))%Z
            then Some (days_from_civil y m d * 86400000)%Z
            else None
        | _, _, _ => None
        end
      else None
  | _ => None
  end.

Definition document (p : Post) : BlogPost :=
  {| summary := p;
     filePath := (path p ++ JsString.of_string ".mdx")%list;
     directory := JsString.of_string ".";
     mdx := (JsString.of_string "compiled " ++ path p)%list |}.

Definition allPosts : list BlogPost := map document Sample.posts.

End SampleSite.

(* ================================================================== *)
(** * Properties *)

(** ** Strings *)

Module JsStringFacts.
Import JsString.

Lemma eqb_eq (a b : t) : eqb a b = true <-> a = b.
Proof.
  revert b. induction a as [|x a IH]; intros [|y b]; simpl;
    try (split; [discriminate | discriminate]); try (split; reflexivity).
  rewrite andb_true_iff, N.eqb_eq, IH. split.
  - intros [-> ->]. reflexivity.
  - intros H. injection H as -> ->. split; reflexivity.
Qed.

Lemma eqb_refl (a : t) : eqb a a = true.
Proof. apply eqb_eq. reflexivity. Qed.

Lemma eqb_neq (a b : t) : a <> b -> eqb a b = false.
Proof.
  intros H. destruct (eqb a b) eqn:Heq; [|reflexivity].
  apply eqb_eq in Heq. contradiction.
Qed.

Lemma trimStart_blank (s : t) : blank s = true -> trimStart s = [].
Proof.
  induction s as [|c rest IH]; simpl; [reflexivity|].
  intros H. apply andb_true_iff in H as [Hc Hrest].
  rewrite Hc. auto.
Qed.

Lemma trimStart_nil_blank (s : t) : trimStart s = [] -> blank s = true.
Proof.
  induction s as [|c rest IH]; simpl; [reflexivity|].
  destruct (is_white_space c); [auto | discriminate].
Qed.

(** What [trimStart] leaves starts with a character that is kept. *)
Lemma trimStart_head (s : t) :
  trimStart s = [] \/
  exists c rest, trimStart s = c :: rest /\ is_white_space c = false.
Proof.
  induction s as [|c rest IH]; simpl; [now left|].
  destruct (is_white_space c) eqn:Hc; [exact IH|].
  right. exists c, rest. split; [reflexivity | exact Hc].
Qed.

Lemma trim_blank (s : t) : blank s = true -> trim s = [].
Proof.
  intros H. unfold trim, trimEnd. rewrite (trimStart_blank _ H). reflexivity.
Qed.

Lemma trim_nil_blank (s : t) : trim s = [] -> blank s = true.
Proof.
  unfold trim, trimEnd. intros H.
  destruct (trimStart_head s) as [Hnil | (c & rest & Heq & Hc)].
  - apply trimStart_nil_blank; exact Hnil.
  - exfalso. rewrite Heq in H.
    assert (Hr : trimStart (rev (c :: rest)) = []).
    { destruct (trimStart (rev (c :: rest))) as [|x xs]; [reflexivity|].
      simpl in H. destruct (rev xs); discriminate. }
    (* the last character of [rev (c :: rest)] is [c], and [c] is kept *)
    apply trimStart_nil_blank in Hr. simpl in Hr.
    unfold blank in Hr. rewrite forallb_app in Hr. simpl in Hr.
    rewrite Hc, andb_false_r in Hr. discriminate.
Qed.

(** [!s.trim()] holds exactly for the blank strings. *)
Lemma not_truthy_trim (s : t) : negb (truthy (trim s)) = blank s.
Proof.
  destruct (blank s) eqn:Hb.
  - rewrite (trim_blank _ Hb). reflexivity.
  - destruct (trim s) eqn:Ht; [|reflexivity].
    apply trim_nil_blank in Ht. congruence.
Qed.

End JsStringFacts.

(* ------------------------------------------------------------------ *)
(** ** The component and its runtime *)

Module SearchablePostsFacts.
Import SearchablePosts.

Lemma slice0_firstn (A : Type) (arr : list A) (e : Z) :
  (0 <= e)%Z -> slice0 arr e = firstn (Z.to_nat e) arr.
Proof.
  intros He. unfold slice0.
  destruct (Z.ltb_spec e 0) as [Hneg | _]; [lia|].
  destruct (Z.le_gt_cases e (Z.of_nat (length arr))) as [Hle | Hgt].
  - rewrite Z.min_l by exact Hle. reflexivity.
  - rewrite Z.min_r by lia. rewrite Nat2Z.id.
    rewrite firstn_all. symmetry. apply firstn_all2. lia.
Qed.

Lemma slice0_length_le (A : Type) (arr : list A) (e : Z) :
  (length (slice0 arr e) <= length arr)%nat.
Proof. unfold slice0. rewrite length_firstn. apply Nat.le_min_r. Qed.

Lemma render_pass_committed (i : Instance) :
  committed i -> render_pass i = i.
Proof.
  unfold committed, render_pass, deps_changed. intros ->.
  rewrite JsStringFacts.eqb_refl. simpl. rewrite andb_false_r. reflexivity.
Qed.

Lemma render_pass_unmounted (i : Instance) :
  mounted i = false -> render_pass i = i.
Proof. unfold render_pass. intros ->. reflexivity. Qed.

Lemma dispatch_unmounted (i : Instance) (u : Update) :
  mounted i = false -> dispatch i u = i.
Proof. unfold dispatch. intros ->. reflexivity. Qed.

Lemma dispatch_all_unmounted (i : Instance) (us : list Update) :
  mounted i = false -> fold_left dispatch us i = i.
Proof.
  intros Hm. induction us as [|u us IH]; simpl; [reflexivity|].
  rewrite (dispatch_unmounted _ _ Hm). exact IH.
Qed.

Ltac fields :=
  cbn [hooks resetDeps mounted clock timers
       searchQuery currentPage isLoading app].

Section Facts.

Variable E : Fuse.Engine.
Variable posts : list Post.

Lemma filteredPosts_blank (st : State) :
  JsString.blank (searchQuery st) = true -> filteredPosts E posts st = posts.
Proof.
  intros Hb. unfold filteredPosts.
  rewrite JsStringFacts.not_truthy_trim, Hb. reflexivity.
Qed.

Lemma filteredPosts_search (st : State) :
  JsString.blank (searchQuery st) = false ->
  filteredPosts E posts st
  = map Fuse.item (Fuse.search E (fuse posts) (searchQuery st)).
Proof.
  intros Hb. unfold filteredPosts.
  rewrite JsStringFacts.not_truthy_trim, Hb. reflexivity.
Qed.

(** The guard of [loadMorePosts] and the one of the observer callback
    let the same calls through. *)
Lemma onChange_inView_spec (st : State) (inView : bool) :
  onChange_inView E posts st inView
  = if inView && hasMorePosts E posts st && negb (isLoading st)
    then [Dispatch (SetIsLoading true); SetTimeout 2000 loadMorePosts_resume]
    else [].
Proof.
  unfold onChange_inView, loadMorePosts.
  destruct inView, (hasMorePosts E posts st), (isLoading st); reflexivity.
Qed.

Lemma step_InView_ignored (i : Instance) (inView : bool) :
  committed i ->
  inView = false \/ hasMore E posts i = false \/ isLoading (hooks i) = true ->
  step E posts i (InView inView) = i.
Proof.
  intros Hc Hguard. unfold step, handle.
  destruct (mounted i); [|reflexivity].
  rewrite onChange_inView_spec.
  replace (inView && hasMorePosts E posts (hooks i) && negb (isLoading (hooks i)))
    with false.
  - simpl. apply render_pass_committed; exact Hc.
  - unfold hasMore in Hguard.
    destruct inView, (hasMorePosts E posts (hooks i)), (isLoading (hooks i));
      try reflexivity.
    destruct Hguard as [H | [H | H]]; discriminate H.
Qed.

Lemma step_InView_start (i : Instance) :
  mounted i = true -> committed i ->
  isLoading (hooks i) = false -> hasMore E posts i = true ->
  step E posts i (InView true)
  = {| hooks := {| searchQuery := searchQuery (hooks i);
                   currentPage := currentPage (hooks i);
                   isLoading := true |};
       resetDeps := resetDeps i; mounted := true; clock := clock i;
       timers := timers i ++ [((clock i + 2000)%N, loadMorePosts_resume)] |}.
Proof.
  intros Hm Hc Hl Hmore. unfold step, handle. rewrite Hm.
  rewrite onChange_inView_spec. unfold hasMore in Hmore.
  rewrite Hmore, Hl. simpl. unfold dispatch. rewrite Hm. simpl.
  apply render_pass_committed. exact Hc.
Qed.

Lemma step_Input_same (i : Instance) :
  mounted i = true -> committed i ->
  step E posts i (Input (searchQuery (hooks i))) = i.
Proof.
  destruct i as [[q p l] d m c ts]; simpl. intros -> Hc.
  unfold handle, dispatch; simpl.
  apply render_pass_committed. exact Hc.
Qed.

Lemma step_Input_changed (i : Instance) (value : jsstring) :
  mounted i = true -> committed i -> value <> searchQuery (hooks i) ->
  step E posts i (Input value)
  = {| hooks := {| searchQuery := value; currentPage := 1;
                   isLoading := isLoading (hooks i) |};
       resetDeps := Some value; mounted := true; clock := clock i;
       timers := timers i |}.
Proof.
  destruct i as [[q p l] d m c ts]; unfold committed; simpl.
  intros -> -> Hne.
  unfold handle, dispatch; simpl.
  unfold render_pass, deps_changed; simpl.
  rewrite (JsStringFacts.eqb_neq (a := q) (b := value)) by congruence.
  reflexivity.
Qed.

(** *** Time *)

Lemma step_Elapse (i : Instance) (ms : N) :
  step E posts i (Elapse ms) = elapse i ms.
Proof. reflexivity. Qed.

Lemma elapse_no_timer (i : Instance) (ms : N) :
  timers i = [] ->
  elapse i ms
  = {| hooks := hooks i; resetDeps := resetDeps i; mounted := mounted i;
       clock := (clock i + ms)%N; timers := [] |}.
Proof. unfold elapse. intros ->. reflexivity. Qed.

Lemma elapse_pending (i : Instance) (ms d : N) (rest : list Update) :
  timers i = [(d, rest)] -> (clock i + ms < d)%N ->
  elapse i ms
  = {| hooks := hooks i; resetDeps := resetDeps i; mounted := mounted i;
       clock := (clock i + ms)%N; timers := [(d, rest)] |}.
Proof.
  unfold elapse, due. intros -> Hlt. simpl.
  destruct (N.leb_spec d (clock i + ms)) as [Hle | _]; [lia|]. reflexivity.
Qed.

Lemma elapse_due (i : Instance) (ms d : N) (rest : list Update) :
  timers i = [(d, rest)] -> (d <= clock i + ms)%N ->
  elapse i ms
  = render_pass
      (fold_left dispatch rest
         {| hooks := hooks i; resetDeps := resetDeps i; mounted := mounted i;
            clock := (clock i + ms)%N; timers := [] |}).
Proof.
  unfold elapse, due. intros -> Hle. simpl.
  destruct (N.leb_spec d (clock i + ms)) as [_ | Hlt]; [|lia]. reflexivity.
Qed.

(** The reveal completes: one page more, loading over, no timer left. *)
Lemma elapse_reveal (i : Instance) (ms d : N) :
  mounted i = true -> committed i ->
  timers i = [(d, loadMorePosts_resume)] -> (d <= clock i + ms)%N ->
  elapse i ms
  = {| hooks := {| searchQuery := searchQuery (hooks i);
                   currentPage := (currentPage (hooks i) + 1)%Z;
                   isLoading := false |};
       resetDeps := resetDeps i; mounted := true;
       clock := (clock i + ms)%N; timers := [] |}.
Proof.
  destruct i as [[q p l] dp m c ts]; unfold committed; simpl.
  intros -> -> -> Hle.
  rewrite elapse_due with (d := d) (rest := loadMorePosts_resume)
    by first [reflexivity | exact Hle].
  simpl. unfold dispatch; simpl.
  apply render_pass_committed. reflexivity.
Qed.

(** A timer that comes due after unmount runs and changes nothing. *)
Lemma elapse_due_unmounted (i : Instance) (ms d : N) (rest : list Update) :
  mounted i = false -> timers i = [(d, rest)] -> (d <= clock i + ms)%N ->
  elapse i ms
  = {| hooks := hooks i; resetDeps := resetDeps i; mounted := false;
       clock := (clock i + ms)%N; timers := [] |}.
Proof.
  intros Hm Ht Hle. rewrite elapse_due with (1 := Ht) (2 := Hle).
  rewrite dispatch_all_unmounted by exact Hm.
  rewrite render_pass_unmounted by exact Hm.
  rewrite Hm. reflexivity.
Qed.

(** *** Several reports in one callback *)

Lemma onChange_inView_idle (st : State) (inView : bool) :
  isLoading st = false -> hasMorePosts E posts st = true ->
  onChange_inView E posts st inView
  = if inView
    then [Dispatch (SetIsLoading true); SetTimeout 2000 loadMorePosts_resume]
    else [].
Proof.
  intros Hl Hmore. rewrite onChange_inView_spec, Hl, Hmore.
  destruct inView; reflexivity.
Qed.

Lemma onChange_inView_blocked (st : State) (inView : bool) :
  hasMorePosts E posts st = false \/ isLoading st = true ->
  onChange_inView E posts st inView = [].
Proof.
  intros H. rewrite onChange_inView_spec.
  destruct inView, (hasMorePosts E posts st), (isLoading st);
    try reflexivity.
  destruct H as [H | H]; discriminate H.
Qed.

(** A callback delivered while the rendered state is loading, or has
    nothing more to show, calls no setter and sets no timer, however
    many reports it carries. *)
Lemma step_InViewEntries_ignored (i : Instance) (inViews : list bool) :
  committed i ->
  hasMore E posts i = false \/ isLoading (hooks i) = true ->
  step E posts i (InViewEntries inViews) = i.
Proof.
  intros Hc Hguard. unfold step, handle.
  destruct (mounted i); [|reflexivity].
  replace (flat_map (onChange_inView E posts (hooks i)) inViews)
    with (@nil Effect).
  - simpl. apply render_pass_committed; exact Hc.
  - induction inViews as [|b l IH]; simpl; [reflexivity|].
    rewrite onChange_inView_blocked by exact Hguard. exact IH.
Qed.

(** The effects of one report that passes the guard. *)
Lemma perform_start (j : Instance) :
  mounted j = true ->
  fold_left perform
    [Dispatch (SetIsLoading true); SetTimeout 2000 loadMorePosts_resume] j
  = {| hooks := {| searchQuery := searchQuery (hooks j);
                   currentPage := currentPage (hooks j);
                   isLoading := true |};
       resetDeps := resetDeps j; mounted := true; clock := clock j;
       timers := timers j ++ [((clock j + 2000)%N, loadMorePosts_resume)] |}.
Proof.
  intros Hm. simpl. unfold dispatch. rewrite Hm. reflexivity.
Qed.

(** The effects of the reports of one callback, all computed from the
    same idle render: every report that says "in view" sets the flag
    and one more timer. *)
Lemma perform_reports (st : State) (inViews : list bool) :
  isLoading st = false -> hasMorePosts E posts st = true ->
  forall j,
    mounted j = true ->
    fold_left perform (flat_map (onChange_inView E posts st) inViews) j
    = match length (filter (fun b => b) inViews) with
      | O => j
      | S _ =>
          {| hooks := {| searchQuery := searchQuery (hooks j);
                         currentPage := currentPage (hooks j);
                         isLoading := true |};
             resetDeps := resetDeps j; mounted := true; clock := clock j;
             timers :=
               timers j
               ++ repeat ((clock j + 2000)%N, loadMorePosts_resume)
                    (length (filter (fun b => b) inViews)) |}
      end.
Proof.
  intros Hl Hmore. induction inViews as [|b l IH]; intros j Hm;
    [reflexivity|].
  cbn [flat_map]. rewrite fold_left_app.
  rewrite onChange_inView_idle by assumption.
  destruct b; cbn [filter].
  - rewrite perform_start by exact Hm.
    rewrite IH by reflexivity. fields. cbn [length].
    destruct (length (filter (fun b => b) l)) as [|k].
    + reflexivity.
    + rewrite <- app_assoc. reflexivity.
  - cbn [fold_left]. apply IH. exact Hm.
Qed.

Lemma step_InViewEntries_start (i : Instance) (inViews : list bool) :
  mounted i = true -> committed i ->
  isLoading (hooks i) = false -> hasMore E posts i = true ->
  step E posts i (InViewEntries inViews)
  = match length (filter (fun b => b) inViews) with
    | O => i
    | S _ =>
        {| hooks := {| searchQuery := searchQuery (hooks i);
                       currentPage := currentPage (hooks i);
                       isLoading := true |};
           resetDeps := resetDeps i; mounted := true; clock := clock i;
           timers :=
             timers i
             ++ repeat ((clock i + 2000)%N, loadMorePosts_resume)
                  (length (filter (fun b => b) inViews)) |}
    end.
Proof.
  intros Hm Hc Hl Hmore. unfold step, handle. rewrite Hm.
  rewrite perform_reports by assumption.
  destruct (length (filter (fun b => b) inViews));
    apply render_pass_committed; exact Hc.
Qed.

(** *** Several timers due together *)

Lemma filter_due_repeat (now d : N) (rest : list Update) (k : nat) :
  filter (due now) (repeat (d, rest) k)
  = (if (d <=? now)%N then repeat (d, rest) k else [])
  /\ filter (fun tm => negb (due now tm)) (repeat (d, rest) k)
     = (if (d <=? now)%N then [] else repeat (d, rest) k).
Proof.
  unfold due. induction k as [|k [IH1 IH2]]; simpl.
  - destruct (d <=? now)%N; split; reflexivity.
  - rewrite IH1, IH2. destruct (d <=? now)%N; split; reflexivity.
Qed.

Lemma elapse_pending_all (i : Instance) (ms d : N) (rest : list Update)
    (k : nat) :
  timers i = repeat (d, rest) k -> (clock i + ms < d)%N ->
  elapse i ms
  = {| hooks := hooks i; resetDeps := resetDeps i; mounted := mounted i;
       clock := (clock i + ms)%N; timers := repeat (d, rest) k |}.
Proof.
  unfold elapse. intros -> Hlt.
  destruct (filter_due_repeat (clock i + ms) d rest k) as [-> ->].
  destruct (N.leb_spec d (clock i + ms)) as [Hle | _]; [lia|]. reflexivity.
Qed.

(** One completion on a mounted instance. *)
Lemma complete_one (j : Instance) :
  mounted j = true -> committed j ->
  render_pass (fold_left dispatch loadMorePosts_resume j)
  = {| hooks := {| searchQuery := searchQuery (hooks j);
                   currentPage := (currentPage (hooks j) + 1)%Z;
                   isLoading := false |};
       resetDeps := resetDeps j; mounted := true; clock := clock j;
       timers := timers j |}.
Proof.
  destruct j as [[q p l] dp m c ts]; unfold committed; simpl.
  intros -> ->. unfold dispatch; simpl.
  apply render_pass_committed. reflexivity.
Qed.

Lemma complete_all (d : N) (n : nat) :
  forall j,
    mounted j = true -> committed j ->
    fold_left (fun j tm => render_pass (fold_left dispatch (snd tm) j))
              (repeat (d, loadMorePosts_resume) (S n)) j
    = {| hooks := {| searchQuery := searchQuery (hooks j);
                     currentPage := (currentPage (hooks j) + Z.of_nat (S n))%Z;
                     isLoading := false |};
         resetDeps := resetDeps j; mounted := true; clock := clock j;
         timers := timers j |}.
Proof.
  induction n as [|n IH]; intros j Hm Hc.
  - simpl. apply complete_one; assumption.
  - change (repeat (d, loadMorePosts_resume) (S (S n)))
      with ((d, loadMorePosts_resume)
            :: repeat (d, loadMorePosts_resume) (S n)).
    cbn [fold_left snd]. rewrite complete_one by assumption.
    rewrite IH by first [reflexivity | exact Hc].
    fields. do 2 f_equal. lia.
Qed.

(** The reveals in flight complete together: one page more for each,
    loading over, no timer left. *)
Lemma elapse_reveals (i : Instance) (ms d : N) (n : nat) :
  mounted i = true -> committed i ->
  timers i = repeat (d, loadMorePosts_resume) (S n) ->
  (d <= clock i + ms)%N ->
  elapse i ms
  = {| hooks := {| searchQuery := searchQuery (hooks i);
                   currentPage := (currentPage (hooks i) + Z.of_nat (S n))%Z;
                   isLoading := false |};
       resetDeps := resetDeps i; mounted := true;
       clock := (clock i + ms)%N; timers := [] |}.
Proof.
  intros Hm Hc Ht Hle. unfold elapse. rewrite Ht.
  destruct (filter_due_repeat (clock i + ms) d loadMorePosts_resume (S n))
    as [-> ->].
  destruct (N.leb_spec d (clock i + ms)) as [_ | Hlt]; [|lia].
  rewrite complete_all by assumption. reflexivity.
Qed.

(** *** After unmount *)

Lemma timers_run_unmounted (i : Instance) (due_now : list (N * list Update)) :
  mounted i = false ->
  fold_left (fun j tm => render_pass (fold_left dispatch (snd tm) j)) due_now i
  = i.
Proof.
  intros Hm. induction due_now as [|tm due_now IH]; simpl; [reflexivity|].
  rewrite dispatch_all_unmounted by exact Hm.
  rewrite render_pass_unmounted by exact Hm.
  exact IH.
Qed.

Lemma step_unmounted (i : Instance) (ev : Event) :
  mounted i = false ->
  hooks (step E posts i ev) = hooks i /\ mounted (step E posts i ev) = false.
Proof.
  intros Hm. destruct ev as [inView | inViews | value | ms | ]; simpl.
  - rewrite Hm. auto.
  - rewrite Hm. auto.
  - rewrite Hm. auto.
  - unfold elapse. rewrite timers_run_unmounted by exact Hm. auto.
  - auto.
Qed.

Lemma run_unmounted (i : Instance) (trace : list Event) :
  mounted i = false -> hooks (run E posts i trace) = hooks i.
Proof.
  revert i. induction trace as [|ev trace IH]; intros i Hm;
    [reflexivity|].
  destruct (@step_unmounted i ev Hm) as [Hh Hm'].
  change (run E posts i (ev :: trace))
    with (run E posts (step E posts i ev) trace).
  rewrite IH by exact Hm'. exact Hh.
Qed.

Lemma elapse_unmounted (i : Instance) (ms : N) :
  mounted i = false ->
  elapse i ms
  = {| hooks := hooks i; resetDeps := resetDeps i; mounted := false;
       clock := (clock i + ms)%N;
       timers := filter (fun tm => negb (due (clock i + ms) tm)) (timers i) |}.
Proof.
  intros Hm. unfold elapse.
  rewrite timers_run_unmounted by exact Hm. rewrite Hm. reflexivity.
Qed.

(** *** The invariant *)

Lemma mount_consistent : consistent mount.
Proof.
  split; simpl; unfold committed; simpl;
    first [reflexivity | lia | discriminate].
Qed.

Lemma step_consistent (i : Instance) (ev : Event) :
  consistent i -> consistent (step E posts i ev).
Proof.
  intros Hi. pose proof (is_committed Hi) as Hc.
  destruct ev as [inView | inViews | value | ms | ].
  - (* the observer reports *)
    destruct (mounted i) eqn:Hm; [|simpl; rewrite Hm; exact Hi].
    destruct inView; [|rewrite step_InView_ignored; auto].
    destruct (hasMore E posts i) eqn:Hmore;
      [|rewrite step_InView_ignored; auto].
    destruct (isLoading (hooks i)) eqn:Hl;
      [rewrite step_InView_ignored; auto|].
    rewrite step_InView_start by assumption.
    rewrite (idle_no_timer Hi Hm Hl).
    split; simpl; unfold committed; simpl.
    + exact Hc.
    + exact (page_positive Hi).
    + discriminate.
    + intros _ _. exists (clock i + 2000)%N, O.
      split; [reflexivity | lia].
  - (* one callback, several reports *)
    destruct (mounted i) eqn:Hm; [|simpl; rewrite Hm; exact Hi].
    destruct (hasMore E posts i) eqn:Hmore;
      [|rewrite step_InViewEntries_ignored; auto].
    destruct (isLoading (hooks i)) eqn:Hl;
      [rewrite step_InViewEntries_ignored; auto|].
    rewrite step_InViewEntries_start by assumption.
    destruct (length (filter (fun b => b) inViews)) as [|k]; [exact Hi|].
    rewrite (idle_no_timer Hi Hm Hl).
    split; simpl; unfold committed; simpl.
    + exact Hc.
    + exact (page_positive Hi).
    + discriminate.
    + intros _ _. exists (clock i + 2000)%N, k.
      split; [reflexivity | lia].
  - (* the query is edited *)
    destruct (mounted i) eqn:Hm; [|simpl; rewrite Hm; exact Hi].
    destruct (list_eq_dec N.eq_dec value (searchQuery (hooks i))) as [-> | Hne].
    + rewrite step_Input_same by assumption. exact Hi.
    + rewrite step_Input_changed by assumption.
      split; simpl; unfold committed; simpl.
      * reflexivity.
      * lia.
      * intros _. exact (idle_no_timer Hi Hm).
      * intros _. exact (loading_timers Hi Hm).
  - (* time passes *)
    rewrite step_Elapse. destruct (mounted i) eqn:Hm.
    + destruct (isLoading (hooks i)) eqn:Hl.
      * destruct (loading_timers Hi Hm Hl) as (d & n & Hts & Hd).
        destruct (N.le_gt_cases d (clock i + ms)) as [Hdue | Hlater].
        -- rewrite elapse_reveals with (3 := Hts) (4 := Hdue) by assumption.
           split; simpl; unfold committed; simpl.
           ++ exact Hc.
           ++ pose proof (page_positive Hi). lia.
           ++ reflexivity.
           ++ discriminate.
        -- rewrite elapse_pending_all with (1 := Hts) (2 := Hlater).
           split; simpl; unfold committed; simpl.
           ++ exact Hc.
           ++ exact (page_positive Hi).
           ++ congruence.
           ++ intros _ _. exists d, n. split; [reflexivity | lia].
      * rewrite elapse_no_timer by exact (idle_no_timer Hi Hm Hl).
        split; simpl; unfold committed; simpl.
        -- exact Hc.
        -- exact (page_positive Hi).
        -- reflexivity.
        -- congruence.
    + rewrite elapse_unmounted by exact Hm.
      split; simpl; unfold committed; simpl; try discriminate.
      * exact Hc.
      * exact (page_positive Hi).
  - (* unmount *)
    split; simpl; unfold committed; simpl;
      try discriminate.
    + exact Hc.
    + exact (page_positive Hi).
Qed.

Lemma reachable_consistent (i : Instance) :
  reachable E posts i -> consistent i.
Proof.
  induction 1 as [|i ev _ IH]; [exact mount_consistent|].
  apply step_consistent; exact IH.
Qed.

Lemma run_consistent (i : Instance) (trace : list Event) :
  consistent i -> consistent (run E posts i trace).
Proof.
  revert i. induction trace as [|ev trace IH]; intros i Hi; simpl; [exact Hi|].
  apply IH, step_consistent, Hi.
Qed.

Lemma run_reachable (i : Instance) (trace : list Event) :
  reachable E posts i -> reachable E posts (run E posts i trace).
Proof.
  revert i. induction trace as [|ev trace IH]; intros i Hi; simpl; [exact Hi|].
  apply IH. constructor. exact Hi.
Qed.

End Facts.

End SearchablePostsFacts.

(* ================================================================== *)
(** * The specification, claim by claim *)

Import SearchablePosts.
Import SearchablePostsFacts.

(** ** Relevance index *)

(** C2.  For every post collection and every query that is empty or
    consists only of whitespace, [filteredPosts] is the input collection
    itself: the same posts in the same order, the search engine is not
    consulted. *)
Theorem blank_query_returns_all_posts
    (E : Fuse.Engine) (posts : list Post) (st : State) :
  JsString.blank (searchQuery st) = true ->
  filteredPosts E posts st = posts.
Proof. apply filteredPosts_blank. Qed.

Lemma blank_query_returns_all_posts_witness :
  let st := {| searchQuery := [0x20; 0x9; 0x3000]%N; currentPage := 1;
               isLoading := false |} in
  JsString.blank (searchQuery st) = true
  /\ filteredPosts Sample.exact Sample.posts st = Sample.posts.
Proof.
  intros st. split; [reflexivity|].
  apply (@blank_query_returns_all_posts Sample.exact Sample.posts st).
  reflexivity.
Defined.

(** ** Page window *)

(** C3.  In every reachable state the visible posts are the first
    [page * 4] matched posts, in the order of the matched posts; so there
    are no more visible posts than matched ones, and no more than
    [page * 4]; and [hasMore] holds exactly when fewer posts are visible
    than matched. *)
Theorem visible_is_prefix_of_matched
    (E : Fuse.Engine) (posts : list Post) (i : Instance) :
  reachable E posts i ->
  POSTS_PER_PAGE = 4%Z
  /\ visible E posts i
     = firstn (Z.to_nat (page i * POSTS_PER_PAGE)) (matched E posts i)
  /\ (length (visible E posts i) <= length (matched E posts i))%nat
  /\ (Z.of_nat (length (visible E posts i)) <= page i * POSTS_PER_PAGE)%Z
  /\ (hasMore E posts i = true
      <-> (length (visible E posts i) < length (matched E posts i))%nat).
Proof.
  intros Hr. apply reachable_consistent in Hr.
  pose proof (page_positive Hr) as Hp.
  assert (Hprefix : visible E posts i
     = firstn (Z.to_nat (page i * POSTS_PER_PAGE)) (matched E posts i)).
  { unfold visible, displayedPosts, matched, page.
    apply slice0_firstn. unfold POSTS_PER_PAGE. lia. }
  split; [reflexivity|]. split; [exact Hprefix|]. split; [|split].
  - apply slice0_length_le.
  - rewrite Hprefix, length_firstn. unfold page, POSTS_PER_PAGE in *. lia.
  - unfold hasMore, hasMorePosts, visible, matched. apply Nat.ltb_lt.
Qed.

Lemma visible_is_prefix_of_matched_witness :
  let i := run Sample.exact Sample.posts mount [InView true; Elapse 1500] in
  reachable Sample.exact Sample.posts i
  /\ visible Sample.exact Sample.posts i = firstn 4 Sample.posts
  /\ hasMore Sample.exact Sample.posts i = true.
Proof.
  intros i.
  assert (Hr : reachable Sample.exact Sample.posts i)
    by (apply run_reachable; constructor).
  split; [exact Hr|].
  destruct (@visible_is_prefix_of_matched Sample.exact Sample.posts i Hr) as (_ & Hv & _ & _ & Hm).
  split; [exact Hv|]. apply Hm. vm_compute. lia.
Defined.

(** ** Query changes *)

(** C4.  Whatever the page was, a change of the query sets the page back
    to 1 in the same step, so that the visible posts are the first four
    of the newly matched ones; the loading flag and a pending reveal are
    left as they were. *)
Theorem query_change_resets_page
    (E : Fuse.Engine) (posts : list Post) (i : Instance) (value : jsstring) :
  mounted i = true -> committed i -> value <> searchQuery (hooks i) ->
  let j := step E posts i (Input value) in
  searchQuery (hooks j) = value
  /\ page j = 1%Z
  /\ isLoading (hooks j) = isLoading (hooks i)
  /\ timers j = timers i
  /\ visible E posts j = firstn 4 (matched E posts j).
Proof.
  intros Hm Hc Hne j. subst j.
  rewrite step_Input_changed by assumption.
  unfold page, visible, matched, displayedPosts; simpl.
  repeat split. apply slice0_firstn. unfold POSTS_PER_PAGE. lia.
Qed.

Lemma query_change_resets_page_witness :
  let i := run Sample.exact Sample.posts mount
             [InView true; Elapse 2000; Elapse 10] in
  let j := step Sample.exact Sample.posts i (Input (Sample.js "react")) in
  (mounted i = true /\ committed i /\ Sample.js "react" <> searchQuery (hooks i))
  /\ page i = 2%Z /\ page j = 1%Z.
Proof.
  intros i j.
  assert (Hm : mounted i = true) by reflexivity.
  assert (Hc : committed i) by reflexivity.
  assert (Hne : Sample.js "react" <> searchQuery (hooks i)) by discriminate.
  split; [auto|]. split; [reflexivity|].
  exact (proj1 (proj2
    (@query_change_resets_page Sample.exact Sample.posts i
       (Sample.js "react") Hm Hc Hne))).
Defined.

(** ** Revealing the next page *)

(** C6.  When no matched post remains beyond the visible ones, the
    reveal operation does nothing: [loadMorePosts] and the observer
    callback call no setter and set no timer, and the instance after the
    observer's report is the instance before it (same query, page and
    loading flag, no reveal started). *)
Theorem reveal_without_more_is_noop
    (E : Fuse.Engine) (posts : list Post) (i : Instance) (inView : bool) :
  committed i -> hasMore E posts i = false ->
  loadMorePosts E posts (hooks i) = []
  /\ onChange_inView E posts (hooks i) inView = []
  /\ step E posts i (InView inView) = i.
Proof.
  intros Hc Hmore. split; [|split].
  - unfold loadMorePosts. unfold hasMore in Hmore. rewrite Hmore.
    simpl. rewrite orb_true_r. reflexivity.
  - rewrite onChange_inView_spec. unfold hasMore in Hmore. rewrite Hmore.
    rewrite andb_false_r. reflexivity.
  - apply step_InView_ignored; auto.
Qed.

Lemma reveal_without_more_is_noop_witness :
  let i := run Sample.exact Sample.posts mount [InView true; Elapse 2000] in
  (committed i /\ hasMore Sample.exact Sample.posts i = false)
  /\ step Sample.exact Sample.posts i (InView true) = i.
Proof.
  intros i.
  assert (Hc : committed i) by reflexivity.
  assert (Hmore : hasMore Sample.exact Sample.posts i = false) by reflexivity.
  split; [auto|].
  exact (proj2 (proj2
    (@reveal_without_more_is_noop Sample.exact Sample.posts i true Hc Hmore))).
Defined.

(** Two reports in one callback, from an idle state with more to show:
    both pass the guard, two timers are set for the same time, and when
    they are due the page is two higher. *)
Lemma double_report_two_pages
    (E : Fuse.Engine) (posts : list Post) (i : Instance) :
  reachable E posts i ->
  mounted i = true -> isLoading (hooks i) = false ->
  hasMore E posts i = true ->
  let started := step E posts i (InViewEntries [true; true]) in
  let done := step E posts started (Elapse 2000) in
  timers started
  = repeat ((clock i + 2000)%N, loadMorePosts_resume) 2
  /\ page done = (page i + 2)%Z
  /\ isLoading (hooks done) = false.
Proof.
  intros Hr Hm Hl Hmore started done. subst done started.
  pose proof (reachable_consistent Hr) as Hi.
  pose proof (is_committed Hi) as Hc.
  rewrite step_InViewEntries_start by assumption.
  cbn [filter length]. rewrite (idle_no_timer Hi Hm Hl). cbn [app].
  split; [reflexivity|]. rewrite step_Elapse.
  rewrite elapse_reveals with (d := (clock i + 2000)%N) (n := 1%nat)
    by (unfold committed; fields; first [reflexivity | assumption | lia]).
  unfold page. fields. split; [lia | reflexivity].
Qed.

(** Once the component has rendered again with the flag set, the
    guard does hold: a second callback, delivered while the first reveal
    is pending, starts nothing, and the page ends one higher. *)
Lemma report_after_render_is_ignored
    (E : Fuse.Engine) (posts : list Post) (i : Instance) (a : N) :
  reachable E posts i ->
  mounted i = true -> isLoading (hooks i) = false ->
  hasMore E posts i = true -> (a < 2000)%N ->
  let j := run E posts i
             [InView true; Elapse a; InViewEntries [true; true];
              Elapse (2000 - a)] in
  page j = (page i + 1)%Z /\ isLoading (hooks j) = false /\ timers j = [].
Proof.
  intros Hr Hm Hl Hmore Ha. pose proof (reachable_consistent Hr) as Hi.
  pose proof (is_committed Hi) as Hc.
  cbv [run fold_left]. rewrite !step_Elapse.
  rewrite step_InView_start with (i := i) by assumption.
  rewrite (idle_no_timer Hi Hm Hl). fields.
  rewrite elapse_pending
    with (ms := a) (d := (clock i + 2000)%N) (rest := loadMorePosts_resume)
    by (fields; first [reflexivity | lia]).
  fields.
  rewrite step_InViewEntries_ignored by (unfold committed; fields; auto).
  rewrite elapse_reveal with (ms := (2000 - a)%N) (d := (clock i + 2000)%N)
    by (unfold committed; fields; first [reflexivity | assumption | lia]).
  unfold page. fields. auto.
Qed.

(** C1.  The guards of the observer callback and of [loadMorePosts]
    read the loading flag of the render they were created in, so they
    stop a trigger only once the component has rendered again with the
    flag set.  Two reports that arrive before that both pass: with
    thirteen posts, from the initial state (idle, more to show), a
    callback with two reports sets two timers, both due at 2000 ms, and
    when they are due the page has gone from 1 to 3 and twelve posts are
    visible instead of eight.  Two reveals were in flight, and the page
    rose by two, not one. *)
Theorem two_reports_start_two_reveals (E : Fuse.Engine) :
  let posts := Sample.numbered 13 in
  let started := step E posts mount (InViewEntries [true; true]) in
  let done := step E posts started (Elapse 2000) in
  (isLoading (hooks mount) = false /\ hasMore E posts mount = true)
  /\ isLoading (hooks started) = true
  /\ map fst (timers started) = [2000; 2000]%N
  /\ page done = 3%Z
  /\ length (visible E posts done) = 12%nat.
Proof. cbv zeta. repeat split. Qed.

(** C5.  A trigger from the idle state with more matched posts to show
    sets the loading flag and leaves the page as it is; the page stays so
    and the flag stays set until 2000 ms have passed; when 2000 ms have
    passed the page is exactly one higher and the flag is cleared. *)
Theorem reveal_completes_after_delay
    (E : Fuse.Engine) (posts : list Post) (i : Instance) :
  reachable E posts i ->
  mounted i = true -> isLoading (hooks i) = false ->
  hasMore E posts i = true ->
  let started := step E posts i (InView true) in
  (isLoading (hooks started) = true /\ page started = page i)
  /\ (forall ms, (ms < 2000)%N ->
        let waiting := step E posts started (Elapse ms) in
        isLoading (hooks waiting) = true /\ page waiting = page i)
  /\ (forall a, (a <= 2000)%N ->
        let done := run E posts started [Elapse a; Elapse (2000 - a)] in
        isLoading (hooks done) = false /\ page done = (page i + 1)%Z).
Proof.
  intros Hr Hm Hl Hmore started. subst started.
  pose proof (reachable_consistent Hr) as Hi.
  pose proof (is_committed Hi) as Hc.
  rewrite step_InView_start by assumption.
  rewrite (idle_no_timer Hi Hm Hl). fields.
  split; [split; reflexivity|]. split.
  - intros ms Hms. rewrite step_Elapse.
    rewrite elapse_pending
      with (d := (clock i + 2000)%N) (rest := loadMorePosts_resume)
      by (fields; first [reflexivity | lia]).
    split; reflexivity.
  - intros a Ha. cbv [run fold_left]. rewrite !step_Elapse.
    destruct (N.eq_dec a 2000) as [-> | Hne].
    + rewrite elapse_reveal with (ms := 2000%N) (d := (clock i + 2000)%N)
        by (unfold committed; fields; first [reflexivity | assumption | lia]).
      rewrite elapse_no_timer by reflexivity.
      split; reflexivity.
    + rewrite elapse_pending
        with (ms := a) (d := (clock i + 2000)%N) (rest := loadMorePosts_resume)
        by (fields; first [reflexivity | lia]).
      rewrite elapse_reveal with (ms := (2000 - a)%N) (d := (clock i + 2000)%N)
        by (unfold committed; fields; first [reflexivity | assumption | lia]).
      split; reflexivity.
Qed.

Lemma reveal_completes_after_delay_witness :
  let started := step Sample.exact Sample.posts mount (InView true) in
  (reachable Sample.exact Sample.posts mount
   /\ hasMore Sample.exact Sample.posts mount = true)
  /\ page (step Sample.exact Sample.posts started (Elapse 1999)) = 1%Z
  /\ page (run Sample.exact Sample.posts started [Elapse 1999; Elapse 1]) = 2%Z.
Proof.
  intros started.
  assert (Hr : reachable Sample.exact Sample.posts mount) by constructor.
  split; [split; [exact Hr | reflexivity]|].
  destruct (@reveal_completes_after_delay Sample.exact Sample.posts mount
              Hr eq_refl eq_refl eq_refl) as (_ & Hwait & Hdone).
  split.
  - exact (proj2 (Hwait 1999%N eq_refl)).
  - refine (proj2 (Hdone 1999%N _)). discriminate.
Defined.

(** ** What is rendered *)



(** C8.  With six posts and the empty query: at first four posts are
    visible, more remain, and the sentinel's counter reads
    "4 of 6 articles"; after one completed reveal the page is 2, all six
    posts are visible, none remains, and the end message with the total,
    6, is in the view (and the sentinel is not). *)
Theorem six_posts_scenario (E : Fuse.Engine) (posts : list Post) :
  length posts = 6%nat ->
  let first := mount in
  let second := run E posts mount [InView true; Elapse 2000] in
  (searchQuery (hooks first) = []
   /\ length (visible E posts first) = 4%nat
   /\ hasMore E posts first = true
   /\ In (Sentinel "4 of 6 articles") (view E posts first))
  /\ (page second = 2%Z
      /\ length (visible E posts second) = 6%nat
      /\ hasMore E posts second = false
      /\ In (EndMessage 6) (view E posts second)
      /\ forall text, ~ In (Sentinel text) (view E posts second)).
Proof.
  intros Hlen.
  destruct posts as [|p1 [|p2 [|p3 [|p4 [|p5 [|p6 [|p7 rest]]]]]]];
    try discriminate Hlen.
  cbv zeta. split.
  - repeat split. cbv. auto 10.
  - repeat split.
    + cbv. auto 10.
    + intros text Hin. cbv in Hin. intuition discriminate.
Qed.

Lemma six_posts_scenario_witness :
  length Sample.posts = 6%nat
  /\ In (EndMessage 6)
        (view Sample.exact Sample.posts
           (run Sample.exact Sample.posts mount [InView true; Elapse 2000])).
Proof.
  assert (Hlen : length Sample.posts = 6%nat) by reflexivity.
  split; [exact Hlen|].
  destruct (@six_posts_scenario Sample.exact Sample.posts Hlen)
    as (_ & _ & _ & _ & Hend & _).
  exact Hend.
Defined.

(* ------------------------------------------------------------------ *)
(** ** Remarks *)

(** Outside the reachable states the window is not a prefix of that
    length: a negative end index counts from the end of the array. *)
Example slice0_negative_end :
  slice0 [1; 2; 3; 4; 5; 6]%nat (-4) = [1; 2]%nat.
Proof. reflexivity. Qed.

(** A query change does not cancel a pending reveal: the page is reset
    to 1 at once, and the late completion then raises it to 2 for the
    new query. *)
Example late_reveal_after_query_change :
  let i := run Sample.exact Sample.posts mount
             [InView true; Input (Sample.js "Tech Blogger"); Elapse 2000] in
  searchQuery (hooks i) = Sample.js "Tech Blogger"
  /\ page i = 2%Z /\ isLoading (hooks i) = false.
Proof. repeat split. Qed.

(** Unmount does not cancel the timer either: it comes due and is
    consumed afterwards, its setter calls being dropped. *)
Example late_completion_after_unmount :
  let torn := run Sample.exact Sample.posts mount [InView true; Unmount] in
  let late := step Sample.exact Sample.posts torn (Elapse 2000) in
  map fst (timers torn) = [2000%N]
  /\ timers late = []
  /\ hooks late = hooks torn.
Proof. repeat split. Qed.

(* ================================================================== *)
(** * Further properties of the list component *)

Module ListView.
Import Scrolling.

Section View.

Variable E : Fuse.Engine.
Variable posts : list Post.

Lemma slice0_nil (A : Type) (e : Z) : slice0 (@nil A) e = [].
Proof. unfold slice0. apply firstn_nil. Qed.

Lemma slice0_is_prefix (A : Type) (arr : list A) (e : Z) :
  exists n, slice0 arr e = firstn n arr.
Proof. unfold slice0. eexists. reflexivity. Qed.

Lemma firstn_full_length (A : Type) (n : nat) (l : list A) :
  (length l <= length (firstn n l))%nat -> firstn n l = l.
Proof.
  rewrite length_firstn. intros H. apply firstn_all2. lia.
Qed.

Lemma cards_app (u v : list Element) : cards (u ++ v) = cards u ++ cards v.
Proof. unfold cards. apply flat_map_app. Qed.

Lemma cards_PostCard (ps : list Post) : cards (map PostCard ps) = ps.
Proof.
  induction ps as [|p ps IH]; simpl; [reflexivity|]. f_equal. exact IH.
Qed.

(** X1.  The "no articles found" notice is shown exactly when a non-blank
    query matches nothing; it quotes the query, and the rest of the
    view is then empty but for the spinner of a reveal still in
    flight. *)
Theorem no_results_notice (st : State) (q : jsstring) :
  (In (NoResults q) (render E posts st)
   <-> filteredPosts E posts st = []
       /\ JsString.blank (searchQuery st) = false
       /\ q = searchQuery st)
  /\ (In (NoResults q) (render E posts st) ->
      render E posts st
      = NoResults (searchQuery st)
        :: (if isLoading st then [LoadingSpinner] else [])).
Proof.
  assert (Hshape : filteredPosts E posts st = [] ->
                   JsString.blank (searchQuery st) = false ->
                   render E posts st
                   = NoResults (searchQuery st)
                     :: (if isLoading st then [LoadingSpinner] else [])).
  { intros Hm Hb. unfold render, hasMorePosts, displayedPosts.
    rewrite Hm, slice0_nil.
    rewrite <- (negb_involutive (JsString.truthy _)).
    rewrite JsStringFacts.not_truthy_trim, Hb. simpl.
    destruct (isLoading st); reflexivity. }
  assert (Hiff : In (NoResults q) (render E posts st)
                 <-> filteredPosts E posts st = []
                     /\ JsString.blank (searchQuery st) = false
                     /\ q = searchQuery st).
  { split.
    - unfold render. rewrite !in_app_iff, in_map_iff.
      intros [H | [(p & Hp & _) | [H | [H | H]]]].
      + rewrite <- (negb_involutive (JsString.truthy _)) in H.
        rewrite JsStringFacts.not_truthy_trim in H.
        destruct (filteredPosts E posts st) as [|p ps];
          destruct (JsString.blank (searchQuery st));
          simpl in H; try contradiction.
        destruct H as [H | []]. injection H as <-. auto.
      + discriminate Hp.
      + destruct (isLoading st) in H; simpl in H; intuition discriminate.
      + destruct (_ && _) in H; simpl in H; intuition discriminate.
      + destruct (_ && _) in H; simpl in H; intuition discriminate.
    - intros (Hm & Hb & ->). rewrite (Hshape Hm Hb). left. reflexivity. }
  split; [exact Hiff|].
  intros Hin. apply Hiff in Hin. destruct Hin as (Hm & Hb & _). auto.
Qed.

(** The end-of-list message is only shown when nothing more remains. *)
Lemma EndMessage_no_more (st : State) (n : nat) :
  In (EndMessage n) (render E posts st) -> hasMorePosts E posts st = false.
Proof.
  unfold render. rewrite !in_app_iff, in_map_iff.
  intros [H | [(p & Hp & _) | [H | [H | H]]]].
  - destruct (_ && _) in H; simpl in H; intuition discriminate.
  - discriminate Hp.
  - destruct (isLoading st) in H; simpl in H; intuition discriminate.
  - destruct (_ && _) in H; simpl in H; intuition discriminate.
  - destruct (hasMorePosts E posts st); [|reflexivity].
    simpl in H. contradiction.
Qed.

(** X2.  The end-of-list message is shown exactly when the query is
    blank, there is at least one post, and every post of the collection
    is visible; the number it states is the size of the collection. *)
Theorem end_message_when_all_shown (st : State) (n : nat) :
  In (EndMessage n) (render E posts st)
  <-> JsString.blank (searchQuery st) = true
      /\ posts <> []
      /\ displayedPosts E posts st = posts
      /\ n = length posts.
Proof.
  unfold render. rewrite !in_app_iff, in_map_iff.
  rewrite JsStringFacts.not_truthy_trim.
  split.
  - intros [H | [(p & Hp & _) | [H | [H | H]]]].
    + destruct (_ && _) in H; simpl in H; intuition discriminate.
    + discriminate Hp.
    + destruct (isLoading st) in H; simpl in H; intuition discriminate.
    + destruct (_ && _) in H; simpl in H; intuition discriminate.
    + destruct (JsString.blank (searchQuery st)) eqn:Hb;
        [|rewrite andb_false_r in H; contradiction].
      unfold hasMorePosts in H.
      pose proof (filteredPosts_blank E posts st Hb) as Hm.
      destruct (Nat.ltb_spec (length (displayedPosts E posts st))
                             (length (filteredPosts E posts st)))
        as [_ | Hfull]; [contradiction|].
      destruct (Nat.ltb_spec 0 (length (displayedPosts E posts st)))
        as [Hpos | _]; [|contradiction].
      simpl in H. destruct H as [H | []]. injection H as <-.
      assert (Hall : displayedPosts E posts st = posts).
      { unfold displayedPosts in *. rewrite Hm in *.
        destruct (slice0_is_prefix posts
                    (currentPage st * POSTS_PER_PAGE)) as [k Hk].
        rewrite Hk in *. apply firstn_full_length. exact Hfull. }
      split; [reflexivity|]. split.
      * intros ->. rewrite Hall in Hpos. simpl in Hpos. lia.
      * split; [exact Hall | rewrite Hm; reflexivity].
  - intros (Hb & Hne & Hall & ->).
    pose proof (filteredPosts_blank E posts st Hb) as Hm.
    unfold hasMorePosts. rewrite Hall, Hm, Hb, Nat.ltb_irrefl.
    destruct posts as [|p ps]; [contradiction|]. simpl. auto 6.
Qed.

(** X3.  The cards of the view are the visible posts, in their order
    (nothing else in the view is a card); and the sentinel and the
    end-of-list message are never shown together. *)
Theorem cards_are_visible_posts (st : State) :
  cards (render E posts st) = displayedPosts E posts st
  /\ forall text n,
       ~ (In (Sentinel text) (render E posts st)
          /\ In (EndMessage n) (render E posts st)).
Proof.
  split.
  - unfold render. rewrite !cards_app, cards_PostCard.
    destruct (_ && _), (isLoading st), (hasMorePosts E posts st && _),
      (negb (hasMorePosts E posts st) && _ && _);
      simpl; rewrite ?app_nil_r; reflexivity.
  - intros text n [Hs He].
    assert (Hmore : hasMorePosts E posts st = true).
    { revert Hs. unfold render. rewrite !in_app_iff, in_map_iff.
      intros [H | [(p & Hp & _) | [H | [H | H]]]].
      - destruct (_ && _) in H; simpl in H; intuition discriminate.
      - discriminate Hp.
      - destruct (isLoading st) in H; simpl in H; intuition discriminate.
      - destruct (hasMorePosts E posts st); [reflexivity|].
        simpl in H. contradiction.
      - destruct (_ && _) in H; simpl in H; intuition discriminate. }
    apply EndMessage_no_more in He. congruence.
Qed.

End View.

End ListView.

(** ** Reveals over time *)

Module ListDynamics.
Import Scrolling.

Section Dynamics.

Variable E : Fuse.Engine.
Variable posts : list Post.

Lemma firstn_plus (A : Type) (a b : nat) (l : list A) :
  firstn (a + b) l = firstn a l ++ firstn b (skipn a l).
Proof.
  revert l. induction a as [|a IH]; intros l; simpl; [reflexivity|].
  destruct l as [|x l]; simpl.
  - rewrite firstn_nil. reflexivity.
  - f_equal. apply IH.
Qed.

(** In a reachable state the visible posts are the first [4 * page]. *)
Lemma visible_prefix (i : Instance) :
  consistent i ->
  visible E posts i
  = firstn (4 * Z.to_nat (page i)) (matched E posts i).
Proof.
  intros Hi. pose proof (page_positive Hi) as Hp.
  unfold visible, displayedPosts, matched, page.
  rewrite slice0_firstn by (unfold POSTS_PER_PAGE; lia).
  f_equal. unfold POSTS_PER_PAGE. lia.
Qed.

Lemma hasMore_iff (i : Instance) :
  consistent i ->
  hasMore E posts i = true
  <-> (4 * Z.to_nat (page i) < length (matched E posts i))%nat.
Proof.
  intros Hi. unfold hasMore, hasMorePosts.
  fold (visible E posts i). fold (matched E posts i).
  rewrite (visible_prefix Hi), length_firstn, Nat.ltb_lt. lia.
Qed.

(** One trigger and the full delay, from an idle state with more to
    show. *)
Lemma reveal_cycle_step (i : Instance) :
  consistent i -> mounted i = true -> isLoading (hooks i) = false ->
  hasMore E posts i = true ->
  run E posts i reveal_cycle
  = {| hooks := {| searchQuery := searchQuery (hooks i);
                   currentPage := (currentPage (hooks i) + 1)%Z;
                   isLoading := false |};
       resetDeps := resetDeps i; mounted := true;
       clock := (clock i + 2000)%N; timers := [] |}.
Proof.
  intros Hi Hm Hl Hmore. pose proof (is_committed Hi) as Hc.
  unfold reveal_cycle. cbv [run fold_left]. rewrite step_Elapse.
  rewrite step_InView_start by assumption.
  rewrite (idle_no_timer Hi Hm Hl). fields.
  rewrite elapse_reveal with (d := (clock i + 2000)%N)
    by (unfold committed; fields; first [reflexivity | assumption | lia]).
  reflexivity.
Qed.


(** X4.  A completed reveal keeps the posts that were visible and appends
    the next four matched posts, or as many as are left, in their
    order; the matched posts themselves are unchanged. *)
Theorem reveal_appends_next_page (i : Instance) :
  reachable E posts i ->
  mounted i = true -> isLoading (hooks i) = false ->
  hasMore E posts i = true ->
  let j := run E posts i reveal_cycle in
  matched E posts j = matched E posts i
  /\ visible E posts j
     = visible E posts i
       ++ firstn 4 (skipn (length (visible E posts i)) (matched E posts i))
  /\ (length (visible E posts i) < length (visible E posts j))%nat.
Proof.
  intros Hr Hm Hl Hmore j. pose proof (reachable_consistent Hr) as Hi.
  assert (Hj : consistent j)
    by (apply run_consistent; exact Hi).
  pose proof (page_positive Hi) as Hp.
  assert (Hmatched : matched E posts j = matched E posts i).
  { subst j. rewrite reveal_cycle_step by assumption. reflexivity. }
  assert (Hpage : page j = (page i + 1)%Z).
  { subst j. rewrite reveal_cycle_step by assumption. reflexivity. }
  pose proof (proj1 (hasMore_iff Hi) Hmore) as Hlt.
  assert (Hlen : length (visible E posts i) = (4 * Z.to_nat (page i))%nat).
  { rewrite (visible_prefix Hi), length_firstn. lia. }
  assert (Hv : visible E posts j
     = visible E posts i
       ++ firstn 4 (skipn (length (visible E posts i)) (matched E posts i))).
  { rewrite (visible_prefix Hj), Hmatched, Hpage, Hlen, (visible_prefix Hi).
    replace (4 * Z.to_nat (page i + 1))%nat
      with (4 * Z.to_nat (page i) + 4)%nat by (unfold page; lia).
    apply firstn_plus. }
  split; [exact Hmatched|]. split; [exact Hv|].
  rewrite Hv, length_app, length_firstn, length_skipn. lia.
Qed.

(** X5.  However long reveals have been in flight, 2000 ms later they
    are over: the loading flag is clear, no timer is pending, and the
    page is higher by the number of reveals that were in flight (one
    for each report that passed the guard of the callback that started
    them; none in an idle state).  Reveals are in flight exactly while
    the flag is set. *)
Theorem loading_clears_within_delay (i : Instance) :
  reachable E posts i -> mounted i = true ->
  let j := step E posts i (Elapse 2000) in
  isLoading (hooks j) = false
  /\ timers j = []
  /\ page j = (page i + Z.of_nat (length (timers i)))%Z
  /\ searchQuery (hooks j) = searchQuery (hooks i)
  /\ (isLoading (hooks i) = true <-> timers i <> []).
Proof.
  intros Hr Hm j. subst j. pose proof (reachable_consistent Hr) as Hi.
  rewrite step_Elapse. unfold page.
  destruct (isLoading (hooks i)) eqn:Hl.
  - destruct (loading_timers Hi Hm Hl) as (d & n & Hts & Hdue).
    rewrite elapse_reveals with (d := d) (n := n)
      by first [assumption | exact (is_committed Hi) | lia].
    fields. rewrite Hts, repeat_length.
    repeat split; try reflexivity. discriminate.
  - pose proof (idle_no_timer Hi Hm Hl) as Hts.
    rewrite elapse_no_timer by exact Hts.
    fields. rewrite Hl, Hts. simpl. rewrite Z.add_0_r.
    repeat split; try reflexivity; [discriminate | congruence].
Qed.

(** X6.  One event changes the page in two ways only: the completion
    of the reveals in flight raises it by their number, and a change of
    the query sets it to 1.  The query changes only when the search box
    is edited. *)
Theorem page_changes_only_by_reveal_or_query (i : Instance) (ev : Event) :
  reachable E posts i ->
  let j := step E posts i ev in
  (page j = page i
   \/ (page j = (page i + Z.of_nat (length (timers i)))%Z
       /\ timers i <> []
       /\ isLoading (hooks i) = true /\ isLoading (hooks j) = false
       /\ exists ms, ev = Elapse ms)
   \/ (page j = 1%Z /\ exists value,
         ev = Input value /\ value <> searchQuery (hooks i)))
  /\ (searchQuery (hooks j) <> searchQuery (hooks i) ->
      ev = Input (searchQuery (hooks j))).
Proof.
  intros Hr j. subst j. pose proof (reachable_consistent Hr) as Hi.
  pose proof (is_committed Hi) as Hc. unfold page.
  destruct ev as [inView | inViews | value | ms | ].
  - (* one report *)
    destruct (mounted i) eqn:Hm;
      [|simpl; rewrite Hm; split; [left; reflexivity | congruence]].
    destruct inView, (hasMore E posts i) eqn:Hmore,
      (isLoading (hooks i)) eqn:Hl;
      try (rewrite step_InView_ignored by auto;
           split; [left; reflexivity | congruence]).
    rewrite step_InView_start by assumption. fields.
    split; [left; reflexivity | congruence].
  - (* several reports *)
    destruct (mounted i) eqn:Hm;
      [|simpl; rewrite Hm; split; [left; reflexivity | congruence]].
    destruct (hasMore E posts i) eqn:Hmore, (isLoading (hooks i)) eqn:Hl;
      try (rewrite step_InViewEntries_ignored by auto;
           split; [left; reflexivity | congruence]).
    rewrite step_InViewEntries_start by assumption.
    destruct (length (filter (fun b => b) inViews)); fields;
      (split; [left; reflexivity | congruence]).
  - (* search box *)
    destruct (mounted i) eqn:Hm;
      [|simpl; rewrite Hm; split; [left; reflexivity | congruence]].
    destruct (list_eq_dec N.eq_dec value (searchQuery (hooks i))) as [-> | Hne].
    + rewrite step_Input_same by assumption.
      split; [left; reflexivity | congruence].
    + rewrite step_Input_changed by assumption. fields.
      split; [|reflexivity]. right. right. split; [reflexivity|].
      exists value. auto.
  - (* time *)
    rewrite step_Elapse. destruct (mounted i) eqn:Hm.
    + destruct (isLoading (hooks i)) eqn:Hl.
      * destruct (loading_timers Hi Hm Hl) as (d & n & Hts & Hd).
        destruct (N.le_gt_cases d (clock i + ms)) as [Hdue | Hlater].
        -- rewrite elapse_reveals with (3 := Hts) (4 := Hdue) by assumption.
           fields. split; [|congruence].
           right. left. rewrite Hts, repeat_length.
           repeat split; try reflexivity; [discriminate|].
           exists ms. reflexivity.
        -- rewrite elapse_pending_all with (1 := Hts) (2 := Hlater). fields.
           split; [left; reflexivity | congruence].
      * rewrite elapse_no_timer by exact (idle_no_timer Hi Hm Hl). fields.
        split; [left; reflexivity | congruence].
    + rewrite elapse_unmounted by exact Hm. fields.
      split; [left; reflexivity | congruence].
  - simpl. split; [left; reflexivity | congruence].
Qed.

(** X7.  A change of the query does not cancel the reveals in flight:
    the page is reset to 1 at once, and when the delay is over the page
    of the new query is 1 plus the number of reveals that were in
    flight, whatever the page was before; that is 2 when one reveal was
    in flight. *)
Theorem query_change_keeps_pending_reveal (i : Instance) (value : jsstring) :
  reachable E posts i ->
  mounted i = true -> isLoading (hooks i) = true ->
  value <> searchQuery (hooks i) ->
  let j := run E posts i [Input value; Elapse 2000] in
  searchQuery (hooks j) = value
  /\ page j = (1 + Z.of_nat (length (timers i)))%Z
  /\ isLoading (hooks j) = false
  /\ timers j = []
  /\ (length (timers i) = 1%nat -> page j = 2%Z).
Proof.
  intros Hr Hm Hl Hne j. subst j. pose proof (reachable_consistent Hr) as Hi.
  destruct (loading_timers Hi Hm Hl) as (d & n & Hts & Hdue).
  cbv [run fold_left]. rewrite step_Elapse.
  rewrite step_Input_changed
    by first [assumption | exact (is_committed Hi)].
  rewrite elapse_reveals with (d := d) (n := n)
    by (unfold committed; fields; first [reflexivity | assumption | lia]).
  unfold page. fields. rewrite Hts, repeat_length.
  repeat split. intros Hone. injection Hone as ->. reflexivity.
Qed.

End Dynamics.

End ListDynamics.

(** ** Scrolling to the end, and the empty collection *)

Module ListScrolling.
Import Scrolling.
Import ListDynamics.

Section ToTheEnd.

Variable E : Fuse.Engine.
Variable posts : list Post.





End ToTheEnd.

End ListScrolling.

Module EmptyCollection.

Section Empty.

Variable E : Fuse.Engine.
Hypothesis search_empty : forall q, Fuse.search E (fuse []) q = [].

Lemma matched_empty (st : State) : filteredPosts E [] st = [].
Proof.
  unfold filteredPosts.
  destruct (negb _); [reflexivity|]. rewrite search_empty. reflexivity.
Qed.

Lemma hasMore_empty (i : Instance) : hasMore E [] i = false.
Proof.
  unfold hasMore, hasMorePosts, displayedPosts.
  rewrite matched_empty, ListView.slice0_nil. reflexivity.
Qed.

Lemma reachable_empty (i : Instance) :
  reachable E [] i ->
  isLoading (hooks i) = false /\ page i = 1%Z /\ timers i = [].
Proof.
  induction 1 as [|i ev Hr (Hl & Hp & Ht)]; [repeat split|].
  pose proof (reachable_consistent Hr) as Hi.
  pose proof (is_committed Hi) as Hc. unfold page in *.
  destruct ev as [inView | inViews | value | ms | ].
  - rewrite step_InView_ignored by (auto using hasMore_empty). auto.
  - rewrite step_InViewEntries_ignored by (auto using hasMore_empty). auto.
  - destruct (mounted i) eqn:Hm; [|simpl; rewrite Hm; auto].
    destruct (list_eq_dec N.eq_dec value (searchQuery (hooks i))) as [-> | Hne].
    + rewrite step_Input_same by assumption. auto.
    + rewrite step_Input_changed by assumption. fields. auto.
  - rewrite step_Elapse, elapse_no_timer by exact Ht. fields. auto.
  - simpl. auto.
Qed.

End Empty.

End EmptyCollection.

(** X9.  With no posts (and a search engine that finds nothing in an empty
    index) the list never starts a reveal and never leaves page 1; it
    shows nothing at all for a blank query, and only the "no articles
    found" notice for any other. *)
Theorem empty_collection_shows_nothing (E : Fuse.Engine) (i : Instance) :
  (forall q, Fuse.search E (fuse []) q = []) ->
  reachable E [] i ->
  isLoading (hooks i) = false
  /\ page i = 1%Z
  /\ timers i = []
  /\ view E [] i
     = if JsString.blank (searchQuery (hooks i)) then []
       else [NoResults (searchQuery (hooks i))].
Proof.
  intros Hempty Hr.
  destruct (@EmptyCollection.reachable_empty E Hempty i Hr) as (Hl & Hp & Ht).
  repeat (split; [assumption|]).
  unfold view, render, hasMorePosts, displayedPosts.
  rewrite (@EmptyCollection.matched_empty E Hempty), ListView.slice0_nil, Hl.
  rewrite <- (negb_involutive (JsString.truthy _)).
  rewrite JsStringFacts.not_truthy_trim.
  destruct (JsString.blank (searchQuery (hooks i))); reflexivity.
Qed.

Lemma empty_collection_shows_nothing_witness :
  let i := run Sample.exact [] mount
             [Input (Sample.js "react"); InView true; Elapse 2000] in
  ((forall q, Fuse.search Sample.exact (fuse []) q = [])
   /\ reachable Sample.exact [] i)
  /\ view Sample.exact [] i = [NoResults (Sample.js "react")].
Proof.
  intros i.
  assert (Hempty : forall q, Fuse.search Sample.exact (fuse []) q = [])
    by reflexivity.
  assert (Hr : reachable Sample.exact [] i)
    by (apply run_reachable; constructor).
  split; [split; assumption|].
  exact (proj2 (proj2 (proj2
    (@empty_collection_shows_nothing Sample.exact i Hempty Hr)))).
Defined.

(** ** Witnesses for the reveal properties *)

Lemma reveal_appends_next_page_witness :
  let j := run Sample.exact Sample.posts mount Scrolling.reveal_cycle in
  (reachable Sample.exact Sample.posts mount
   /\ hasMore Sample.exact Sample.posts mount = true)
  /\ visible Sample.exact Sample.posts j
     = firstn 4 Sample.posts ++ skipn 4 Sample.posts.
Proof.
  intros j.
  assert (Hr : reachable Sample.exact Sample.posts mount) by constructor.
  split; [split; [exact Hr | reflexivity]|].
  exact (proj1 (proj2
    (@ListDynamics.reveal_appends_next_page Sample.exact Sample.posts mount
       Hr eq_refl eq_refl eq_refl))).
Defined.

Lemma loading_clears_within_delay_witness :
  let i := run Sample.exact Sample.posts mount [InView true; Elapse 1200] in
  (reachable Sample.exact Sample.posts i /\ mounted i = true)
  /\ isLoading (hooks i) = true
  /\ isLoading (hooks (step Sample.exact Sample.posts i (Elapse 2000))) = false.
Proof.
  intros i.
  assert (Hr : reachable Sample.exact Sample.posts i)
    by (apply run_reachable; constructor).
  split; [split; [exact Hr | reflexivity]|]. split; [reflexivity|].
  exact (proj1
    (@ListDynamics.loading_clears_within_delay Sample.exact Sample.posts i
       Hr eq_refl)).
Defined.

Lemma page_changes_only_by_reveal_or_query_witness :
  let i := run Sample.exact Sample.posts mount [InView true; Elapse 2000] in
  let j := step Sample.exact Sample.posts i (Input (Sample.js "css")) in
  reachable Sample.exact Sample.posts i
  /\ page i = 2%Z /\ page j = 1%Z
  /\ (searchQuery (hooks j) <> searchQuery (hooks i) ->
      Input (Sample.js "css") = Input (searchQuery (hooks j))).
Proof.
  intros i j.
  assert (Hr : reachable Sample.exact Sample.posts i)
    by (apply run_reachable; constructor).
  split; [exact Hr|]. split; [reflexivity|]. split; [reflexivity|].
  exact (proj2
    (@ListDynamics.page_changes_only_by_reveal_or_query
       Sample.exact Sample.posts i (Input (Sample.js "css")) Hr)).
Defined.

Lemma query_change_keeps_pending_reveal_witness :
  let i := run Sample.exact Sample.posts mount
             [InViewEntries [true; true]; Elapse 500] in
  (reachable Sample.exact Sample.posts i
   /\ mounted i = true /\ isLoading (hooks i) = true
   /\ Sample.js "javascript" <> searchQuery (hooks i))
  /\ page (run Sample.exact Sample.posts i
             [Input (Sample.js "javascript"); Elapse 2000]) = 3%Z.
Proof.
  intros i.
  assert (Hr : reachable Sample.exact Sample.posts i)
    by (apply run_reachable; constructor).
  assert (Hne : Sample.js "javascript" <> searchQuery (hooks i))
    by discriminate.
  split; [repeat split; assumption|].
  exact (proj1 (proj2
    (@ListDynamics.query_change_keeps_pending_reveal
       Sample.exact Sample.posts i (Sample.js "javascript")
       Hr eq_refl eq_refl Hne))).
Defined.

(** ** The counter of the sentinel *)

Module SentinelFacts.

Section Counter.

Variable E : Fuse.Engine.
Variable posts : list Post.

Lemma sentinel_in_render (st : State) (text : string) :
  In (Sentinel text) (render E posts st)
  -> hasMorePosts E posts st = true /\ isLoading st = false
     /\ text = counter E posts st.
Proof.
  unfold render. rewrite !in_app_iff, in_map_iff.
  intros [H | [(p & Hp & _) | [H | [H | H]]]].
  - destruct (_ && _) in H; simpl in H; intuition discriminate.
  - discriminate Hp.
  - destruct (isLoading st) in H; simpl in H; intuition discriminate.
  - destruct (hasMorePosts E posts st), (isLoading st);
      simpl in H; try contradiction.
    destruct H as [H | []]. injection H as <-. auto.
  - destruct (_ && _) in H; simpl in H; intuition discriminate.
Qed.

End Counter.

End SentinelFacts.

(** X10.  When the sentinel is shown in a reachable state, its counter reads
    "[4 * page] of [total] articles", where the total is the number of
    matched posts and is larger than [4 * page]; no reveal is in flight
    then. *)
Theorem sentinel_counter_reads_window
    (E : Fuse.Engine) (posts : list Post) (i : Instance) (text : string) :
  reachable E posts i ->
  In (Sentinel text) (view E posts i) ->
  text = (string_of_nat (4 * Z.to_nat (page i)) ++ " of "
          ++ string_of_nat (length (matched E posts i)) ++ " articles")%string
  /\ (4 * Z.to_nat (page i) < length (matched E posts i))%nat
  /\ isLoading (hooks i) = false.
Proof.
  intros Hr Hin. pose proof (reachable_consistent Hr) as Hi.
  apply SentinelFacts.sentinel_in_render in Hin.
  destruct Hin as (Hmore & Hl & ->).
  pose proof (proj1 (ListDynamics.hasMore_iff E posts Hi) Hmore) as Hlt.
  split; [|split; assumption].
  unfold counter. fold (visible E posts i). fold (matched E posts i).
  rewrite (ListDynamics.visible_prefix E posts Hi), length_firstn.
  rewrite Nat.min_l by lia. reflexivity.
Qed.

Lemma sentinel_counter_reads_window_witness :
  reachable Sample.exact Sample.posts mount
  /\ In (Sentinel "4 of 6 articles") (view Sample.exact Sample.posts mount)
  /\ (4 * Z.to_nat (page mount) < length (matched Sample.exact Sample.posts mount))%nat.
Proof.
  assert (Hr : reachable Sample.exact Sample.posts mount) by constructor.
  assert (Hin : In (Sentinel "4 of 6 articles")
                   (view Sample.exact Sample.posts mount))
    by (vm_compute; auto 10).
  split; [exact Hr|]. split; [exact Hin|].
  exact (proj1 (proj2
    (@sentinel_counter_reads_window Sample.exact Sample.posts mount
       "4 of 6 articles" Hr Hin))).
Defined.

(* ================================================================== *)
(** * The home page *)

Module HomeFacts.
Import Types.
Import Home.

Section SortFacts.

Variable A : Type.
Variable comparefn : A -> A -> Z.

Lemma insert_perm (x : A) (l : list A) :
  Permutation (insert comparefn x l) (x :: l).
Proof.
  induction l as [|y l IH]; simpl; [reflexivity|].
  destruct (comparefn x y <=? 0)%Z; [reflexivity|].
  rewrite IH. apply perm_swap.
Qed.

Lemma sort_perm (l : list A) : Permutation (sort comparefn l) l.
Proof.
  induction l as [|x l IH]; simpl; [reflexivity|].
  rewrite insert_perm. apply perm_skip. exact IH.
Qed.

End SortFacts.

Section ByDate.

Variable getTime : jsstring -> option Z.

Lemma by_date_valid (a b : BlogPost) :
  valid_date getTime a -> valid_date getTime b ->
  by_date getTime a b = (time_of getTime b - time_of getTime a)%Z.
Proof.
  unfold valid_date, by_date, time_of.
  destruct (getTime (date (summary a))), (getTime (date (summary b)));
    intros Ha Hb; congruence.
Qed.

Lemma insert_sorted (x : BlogPost) (l : list BlogPost) :
  valid_date getTime x -> Forall (valid_date getTime) l ->
  StronglySorted (fun a b => (time_of getTime b <= time_of getTime a)%Z) l ->
  StronglySorted (fun a b => (time_of getTime b <= time_of getTime a)%Z) (insert (by_date getTime) x l).
Proof.
  intros Hx Hl Hs. induction Hs as [|y l Hs IH Hy]; simpl.
  - repeat constructor.
  - inversion Hl as [|? ? Hvy Hvl]; subst.
    rewrite (by_date_valid Hx Hvy).
    destruct (Z.leb_spec (time_of getTime y - time_of getTime x) 0) as [Hle | Hgt].
    + constructor; [constructor; assumption|].
      constructor; [lia|].
      rewrite Forall_forall in Hy |- *. intros z Hz.
      specialize (Hy z Hz). simpl in Hy. lia.
    + constructor; [apply IH; exact Hvl|].
      rewrite (insert_perm (by_date getTime) x l).
      constructor; [lia | exact Hy].
Qed.

(** Passing over [y] happens only when [y] is strictly newer, so the
    posts of one date keep their order. *)
Lemma insert_filter (t : Z) (x : BlogPost) (l : list BlogPost) :
  valid_date getTime x -> Forall (valid_date getTime) l ->
  filter (fun b => (time_of getTime b =? t)%Z) (insert (by_date getTime) x l)
  = filter (fun b => (time_of getTime b =? t)%Z) (x :: l).
Proof.
  intros Hx Hl. induction Hl as [|y l Hvy Hvl IH]; [reflexivity|].
  simpl. rewrite (by_date_valid Hx Hvy).
  destruct (Z.leb_spec (time_of getTime y - time_of getTime x) 0) as [Hle | Hgt]; [reflexivity|].
  simpl. rewrite IH. simpl.
  destruct (Z.eqb_spec (time_of getTime x) t) as [Hxt | Hxt];
    destruct (Z.eqb_spec (time_of getTime y) t) as [Hyt | Hyt];
    try reflexivity.
  lia.
Qed.

Lemma sortedPosts_valid (allPosts : list BlogPost) :
  Forall (valid_date getTime) allPosts ->
  Forall (valid_date getTime) (sortedPosts getTime allPosts).
Proof.
  intros H. unfold sortedPosts.
  rewrite (sort_perm (by_date getTime) allPosts). exact H.
Qed.

Lemma sortedPosts_sorted (allPosts : list BlogPost) :
  Forall (valid_date getTime) allPosts ->
  StronglySorted (fun a b => (time_of getTime b <= time_of getTime a)%Z) (sortedPosts getTime allPosts).
Proof.
  induction 1 as [|x l Hx Hl IH]; [constructor|].
  apply insert_sorted; [exact Hx | apply sortedPosts_valid; exact Hl | exact IH].
Qed.

Lemma sortedPosts_stable (t : Z) (allPosts : list BlogPost) :
  Forall (valid_date getTime) allPosts ->
  filter (fun b => (time_of getTime b =? t)%Z) (sortedPosts getTime allPosts)
  = filter (fun b => (time_of getTime b =? t)%Z) allPosts.
Proof.
  induction 1 as [|x l Hx Hl IH]; [reflexivity|].
  change (sortedPosts getTime (x :: l))
    with (insert (by_date getTime) x (sortedPosts getTime l)).
  rewrite insert_filter by (try apply sortedPosts_valid; assumption).
  simpl. rewrite IH. reflexivity.
Qed.

Lemma sorted_split (l1 l2 : list BlogPost) :
  StronglySorted (fun a b => (time_of getTime b <= time_of getTime a)%Z) (l1 ++ l2) ->
  forall a b, In a l1 -> In b l2 -> (time_of getTime b <= time_of getTime a)%Z.
Proof.
  induction l1 as [|x l1 IH]; intros Hs a b Ha Hb; [contradiction|].
  simpl in Hs. inversion Hs as [|? ? Hs' Hx]; subst.
  destruct Ha as [-> | Ha].
  - rewrite Forall_forall in Hx. apply (Hx b). apply in_or_app. now right.
  - exact (IH Hs' a b Ha Hb).
Qed.

End ByDate.

End HomeFacts.

(** X11.  The home page hands the list the same posts it was given, none
    lost and none repeated, newest first; posts of the same date keep
    the order they had.  (All dates valid: with an invalid date the
    comparator is inconsistent and the order is up to the engine.) *)
Theorem home_sorts_newest_first
    (getTime : jsstring -> option Z) (allPosts : list Types.BlogPost) :
  Forall (Home.valid_date getTime) allPosts ->
  let sorted := Home.sortedPosts getTime allPosts in
  Home.Home getTime allPosts = map Types.summary sorted
  /\ Permutation sorted allPosts
  /\ StronglySorted
       (fun a b => (Home.time_of getTime b <= Home.time_of getTime a)%Z)
       sorted
  /\ forall t,
       filter (fun b => (Home.time_of getTime b =? t)%Z) sorted
       = filter (fun b => (Home.time_of getTime b =? t)%Z) allPosts.
Proof.
  intros Hvalid sorted. split; [reflexivity|]. split; [|split].
  - apply HomeFacts.sort_perm.
  - apply HomeFacts.sortedPosts_sorted. exact Hvalid.
  - intros t. apply HomeFacts.sortedPosts_stable. exact Hvalid.
Qed.

Lemma home_sorts_newest_first_witness :
  Forall (Home.valid_date SampleSite.getTime) SampleSite.allPosts
  /\ map (fun p => date p) (Home.Home SampleSite.getTime SampleSite.allPosts)
     = map Sample.js
         ["2024-02-25"; "2024-02-15"; "2024-02-10"; "2024-02-05";
          "2024-01-30"; "2024-01-25"]%string.
Proof.
  assert (Hvalid : Forall (Home.valid_date SampleSite.getTime)
                          SampleSite.allPosts)
    by (repeat constructor; discriminate).
  split; [exact Hvalid|].
  rewrite (proj1 (@home_sorts_newest_first SampleSite.getTime
                    SampleSite.allPosts Hvalid)).
  reflexivity.
Defined.

(** X12.  Home page and list together: before any scrolling the list shows
    the first four posts of the sorted collection, and each of them is
    at least as new as every post not yet shown. *)
Theorem first_page_is_newest_four
    (E : Fuse.Engine) (getTime : jsstring -> option Z)
    (allPosts : list Types.BlogPost) :
  Forall (Home.valid_date getTime) allPosts ->
  let sorted := Home.sortedPosts getTime allPosts in
  visible E (Home.Home getTime allPosts) mount
  = map Types.summary (firstn 4 sorted)
  /\ forall shown hidden,
       In shown (firstn 4 sorted) -> In hidden (skipn 4 sorted) ->
       (Home.time_of getTime hidden <= Home.time_of getTime shown)%Z.
Proof.
  intros Hvalid sorted. split.
  - unfold visible, displayedPosts.
    rewrite filteredPosts_blank by reflexivity.
    rewrite slice0_firstn by (vm_compute; discriminate).
    unfold Home.Home. fold sorted. rewrite firstn_map. reflexivity.
  - apply HomeFacts.sorted_split.
    rewrite firstn_skipn. apply HomeFacts.sortedPosts_sorted. exact Hvalid.
Qed.

Lemma first_page_is_newest_four_witness :
  Forall (Home.valid_date SampleSite.getTime) SampleSite.allPosts
  /\ map path (visible Sample.exact
                 (Home.Home SampleSite.getTime SampleSite.allPosts) mount)
     = map Sample.js
         ["graphql-vs-rest"; "react-server-components";
          "nodejs-performance-optimization"; "modern-css-techniques"]%string.
Proof.
  assert (Hvalid : Forall (Home.valid_date SampleSite.getTime)
                          SampleSite.allPosts)
    by (repeat constructor; discriminate).
  split; [exact Hvalid|].
  rewrite (proj1 (@first_page_is_newest_four Sample.exact SampleSite.getTime
                    SampleSite.allPosts Hvalid)).
  reflexivity.
Defined.

(* ================================================================== *)
(** * The article page *)

Module BlogPageFacts.
Import Types.
Import BlogPage.

Lemma find_post_Some (allPosts : list Types.BlogPost) (slug : jsstring)
    (post : Types.BlogPost) :
  find_post allPosts slug = Some post ->
  In post allPosts /\ path (summary post) = slug.
Proof.
  unfold find_post. intros H. apply find_some in H as [Hin Heq].
  split; [exact Hin|]. apply JsStringFacts.eqb_eq. exact Heq.
Qed.

Lemma find_post_None (allPosts : list Types.BlogPost) (slug : jsstring) :
  find_post allPosts slug = None
  <-> forall post, In post allPosts -> path (summary post) <> slug.
Proof.
  unfold find_post. split.
  - intros H post Hin Heq.
    pose proof (find_none _ _ H post Hin) as Hf. simpl in Hf.
    rewrite Heq, JsStringFacts.eqb_refl in Hf. discriminate.
  - intros H.
    destruct (find _ allPosts) as [post|] eqn:Hf; [|reflexivity].
    apply find_some in Hf as [Hin Heq].
    apply JsStringFacts.eqb_eq in Heq. exfalso. exact (H post Hin Heq).
Qed.

(** With distinct paths a path names one post. *)
Lemma unique_path (allPosts : list Types.BlogPost) (a b : Types.BlogPost) :
  NoDup (map (fun post => path (summary post)) allPosts) ->
  In a allPosts -> In b allPosts ->
  path (summary a) = path (summary b) -> a = b.
Proof.
  induction allPosts as [|x l IH]; intros Hnd Ha Hb Heq; [contradiction|].
  simpl in Hnd. inversion Hnd as [|? ? Hx Hl]; subst.
  destruct Ha as [-> | Ha], Hb as [-> | Hb].
  - reflexivity.
  - exfalso. apply Hx. rewrite Heq.
    apply (in_map (fun post => path (summary post))). exact Hb.
  - exfalso. apply Hx. rewrite <- Heq.
    apply (in_map (fun post => path (summary post))). exact Ha.
  - exact (IH Hl Ha Hb Heq).
Qed.

End BlogPageFacts.

(** X13.  A slug that is the path of no post is answered by [notFound()] and
    by the metadata title "Post not found" without a description, and
    only such a slug is; when the page is an article, the metadata
    carries that article's title and description. *)
Theorem unknown_slug_not_found
    (allPosts : list Types.BlogPost) (slug : jsstring) :
  (BlogPage.BlogPost allPosts slug = BlogPage.notFound
   <-> forall post, In post allPosts -> path (Types.summary post) <> slug)
  /\ (BlogPage.BlogPost allPosts slug = BlogPage.notFound ->
      BlogPage.generateMetadata allPosts slug
      = {| BlogPage.Metadata.title := JsString.of_string "Post not found";
           BlogPage.Metadata.description := None |})
  /\ (forall a,
        BlogPage.BlogPost allPosts slug = BlogPage.article a ->
        BlogPage.generateMetadata allPosts slug
        = {| BlogPage.Metadata.title := BlogPage.Article.title a;
             BlogPage.Metadata.description :=
               Some (BlogPage.Article.description a) |}).
Proof.
  unfold BlogPage.BlogPost, BlogPage.generateMetadata.
  pose proof (BlogPageFacts.find_post_None allPosts slug) as Hnone.
  destruct (BlogPage.find_post allPosts slug) as [post|].
  - split; [|split].
    + split; [discriminate|].
      intros H. apply Hnone in H. discriminate.
    + discriminate.
    + intros a Ha. injection Ha as <-. reflexivity.
  - split; [|split].
    + split; [intros _; apply Hnone; reflexivity | reflexivity].
    + reflexivity.
    + discriminate.
Qed.

(** X14.  Every static parameter is served: there is one parameter per post,
    and the page for the slug of a parameter is an article of a post
    with that path, never [notFound()]. *)
Theorem static_params_are_served
    (allPosts : list Types.BlogPost) (param : BlogPage.StaticParams) :
  In param (BlogPage.generateStaticParams allPosts) ->
  length (BlogPage.generateStaticParams allPosts) = length allPosts
  /\ exists post,
       In post allPosts
       /\ path (Types.summary post) = BlogPage.slug param
       /\ BlogPage.BlogPost allPosts (BlogPage.slug param)
          = BlogPage.article (BlogPage.article_of post).
Proof.
  intros Hin. split; [apply length_map|].
  apply in_map_iff in Hin. destruct Hin as (p & <- & Hp). simpl.
  unfold BlogPage.BlogPost.
  destruct (BlogPage.find_post allPosts (path (Types.summary p)))
    as [post|] eqn:Hf.
  - apply BlogPageFacts.find_post_Some in Hf as [Hpost Hpath].
    exists post. repeat split; assumption.
  - exfalso.
    exact (proj1 (BlogPageFacts.find_post_None _ _) Hf p Hp eq_refl).
Qed.

Lemma static_params_are_served_witness :
  let param := {| BlogPage.slug := Sample.js "modern-css-techniques" |} in
  In param (BlogPage.generateStaticParams SampleSite.allPosts)
  /\ length (BlogPage.generateStaticParams SampleSite.allPosts) = 6%nat.
Proof.
  intros param.
  assert (Hin : In param (BlogPage.generateStaticParams SampleSite.allPosts))
    by (simpl; auto).
  split; [exact Hin|].
  exact (proj1 (@static_params_are_served SampleSite.allPosts param Hin)).
Defined.

(** X15.  When the paths of the posts are distinct, the page for the path of
    a post shows that post (its date, title, description, tags and
    body) and the metadata are its title and description. *)
Theorem unique_paths_serve_each_post
    (allPosts : list Types.BlogPost) (post : Types.BlogPost) :
  NoDup (map (fun p => path (Types.summary p)) allPosts) ->
  In post allPosts ->
  BlogPage.BlogPost allPosts (path (Types.summary post))
  = BlogPage.article (BlogPage.article_of post)
  /\ BlogPage.generateMetadata allPosts (path (Types.summary post))
     = {| BlogPage.Metadata.title := title (Types.summary post);
          BlogPage.Metadata.description :=
            Some (description (Types.summary post)) |}.
Proof.
  intros Hnd Hin.
  unfold BlogPage.BlogPost, BlogPage.generateMetadata.
  destruct (BlogPage.find_post allPosts (path (Types.summary post)))
    as [found|] eqn:Hf.
  - apply BlogPageFacts.find_post_Some in Hf as [Hfound Hpath].
    assert (found = post) as ->
      by (apply (@BlogPageFacts.unique_path allPosts found post Hnd);
          assumption).
    split; reflexivity.
  - exfalso.
    exact (proj1 (BlogPageFacts.find_post_None _ _) Hf post Hin eq_refl).
Qed.

Lemma unique_paths_serve_each_post_witness :
  let post := SampleSite.document
                (Sample.mkPost "react-server-components"
                   "React Server Components: The Future of React"
                   "Understanding React Server Components and how they revolutionize React applications"
                   "2024-02-15"
                   ["react"; "server-components"; "nextjs"; "performance"]
                   "/next.svg")%string in
  (NoDup (map (fun p => path (Types.summary p)) SampleSite.allPosts)
   /\ In post SampleSite.allPosts)
  /\ BlogPage.Metadata.title
       (BlogPage.generateMetadata SampleSite.allPosts
          (Sample.js "react-server-components"))
     = Sample.js "React Server Components: The Future of React".
Proof.
  intros post.
  assert (Hnd : NoDup (map (fun p => path (Types.summary p))
                           SampleSite.allPosts)).
  { repeat constructor; simpl; intuition discriminate. }
  assert (Hin : In post SampleSite.allPosts) by (simpl; auto 10).
  split; [split; assumption|].
  exact (f_equal BlogPage.Metadata.title
           (proj2 (@unique_paths_serve_each_post SampleSite.allPosts post
                     Hnd Hin))).
Defined.

(** X16.  Home page, list and article page together: every post the list
    shows has its article page.  The list is given the sorted posts; a
    visible post is one of them (for a non-blank query, by the search
    library's contract), and the page for its path is an article. *)
Theorem listed_posts_have_pages
    (E : Fuse.Engine) (getTime : jsstring -> option Z)
    (allPosts : list Types.BlogPost) (st : State) (p : Post) :
  let posts := Home.Home getTime allPosts in
  JsString.blank (searchQuery st) = true
  \/ Fuse.respects E (fuse posts) (searchQuery st) ->
  In p (displayedPosts E posts st) ->
  exists post,
    In post allPosts
    /\ path (Types.summary post) = path p
    /\ BlogPage.BlogPost allPosts (path p)
       = BlogPage.article (BlogPage.article_of post).
Proof.
  intros posts Hq Hin.
  assert (Hmatched : In p (filteredPosts E posts st)).
  { unfold displayedPosts in Hin.
    destruct (ListView.slice0_is_prefix (filteredPosts E posts st)
                (currentPage st * POSTS_PER_PAGE)) as [k Hk].
    rewrite Hk in Hin.
    rewrite <- (firstn_skipn k (filteredPosts E posts st)).
    apply in_or_app. now left. }
  assert (Hposts : In p posts).
  { destruct (JsString.blank (searchQuery st)) eqn:Hb.
    - rewrite (filteredPosts_blank E posts st Hb) in Hmatched. exact Hmatched.
    - destruct Hq as [Hq | Hq]; [discriminate|].
      rewrite (filteredPosts_search E posts st Hb) in Hmatched.
      apply in_map_iff in Hmatched. destruct Hmatched as (r & <- & Hr).
      pose proof (Fuse.drawn Hq) as Hdrawn.
      rewrite Forall_forall in Hdrawn.
      apply nth_error_In with (n := Fuse.refIndex r). exact (Hdrawn r Hr). }
  unfold posts, Home.Home in Hposts. apply in_map_iff in Hposts.
  destruct Hposts as (doc & <- & Hdoc).
  apply (Permutation_in _ (HomeFacts.sort_perm _ allPosts)) in Hdoc.
  unfold BlogPage.BlogPost.
  destruct (BlogPage.find_post allPosts (path (Types.summary doc)))
    as [post|] eqn:Hf.
  - apply BlogPageFacts.find_post_Some in Hf as [Hpost Hpath].
    exists post. repeat split; assumption.
  - exfalso.
    exact (proj1 (BlogPageFacts.find_post_None _ _) Hf doc Hdoc eq_refl).
Qed.

Lemma listed_posts_have_pages_witness :
  let posts := Home.Home SampleSite.getTime SampleSite.allPosts in
  let st := hooks mount in
  let p := hd (Sample.mkPost "" "" "" "" [] "") posts in
  (JsString.blank (searchQuery st) = true
   /\ In p (displayedPosts Sample.exact posts st))
  /\ BlogPage.BlogPost SampleSite.allPosts (path p) <> BlogPage.notFound.
Proof.
  intros posts st p.
  assert (Hin : In p (displayedPosts Sample.exact posts st))
    by (left; reflexivity).
  split; [split; [reflexivity | exact Hin]|].
  destruct (@listed_posts_have_pages Sample.exact SampleSite.getTime
              SampleSite.allPosts st p (or_introl eq_refl) Hin)
    as (post & _ & _ & Hpage).
  rewrite Hpage. discriminate.
Defined.

(* ================================================================== *)
(** * The code block *)

Module CodeBlockFacts.
Import JsStringOps.

Lemma startsWith_spec (s prefix : jsstring) :
  startsWith s prefix = true <-> exists rest, s = prefix ++ rest.
Proof.
  revert s. induction prefix as [|c prefix IH]; intros s; simpl.
  - split; [intros _; now exists s | intros _; destruct s; reflexivity].
  - destruct s as [|d s]; simpl.
    + split; [discriminate | intros [rest H]; discriminate H].
    + rewrite andb_true_iff, N.eqb_eq, IH. split.
      * intros [-> [rest ->]]. now exists rest.
      * intros [rest H]. injection H as -> ->. split; [reflexivity|].
        now exists rest.
Qed.

(** [includes] finds the search string wherever it occurs. *)
Lemma includes_spec (s searchString : jsstring) :
  includes s searchString = true
  <-> exists before after, s = before ++ searchString ++ after.
Proof.
  induction s as [|d s IH].
  - cbn [includes]. rewrite orb_false_r, startsWith_spec. split.
    + intros [rest H]. now exists [], rest.
    + intros (before & after & H).
      destruct before; [|discriminate H]. now exists after.
  - cbn [includes]. rewrite orb_true_iff, IH, startsWith_spec. split.
    + intros [[rest H] | (before & after & H)].
      * now exists [], rest.
      * exists (d :: before), after. rewrite H. reflexivity.
    + intros (before & after & H). destruct before as [|b before].
      * left. now exists after.
      * right. injection H as -> H. now exists before, after.
Qed.

Section Block.

Variable className : option jsstring.
Variable textContent : jsstring.

Lemma mount_sound : CodeBlock.sound className textContent CodeBlock.mount.
Proof.
  split; simpl; auto; discriminate.
Qed.

Lemma step_sound (i : CodeBlock.Instance) (ev : CodeBlock.Event) :
  CodeBlock.sound className textContent i ->
  CodeBlock.sound className textContent
    (CodeBlock.step className textContent i ev).
Proof.
  intros [Hdue Hreset Hw Hclip Hcopied Hplain].
  destruct ev as [ | ok | ms]; simpl.
  - (* click *)
    unfold CodeBlock.handleCopy_start.
    destruct (CodeBlock.is_shiki className) eqn:Hs;
      [|split; first [assumption | intros _; apply Hplain; reflexivity]].
    split; simpl; try assumption.
    + apply Forall_app. split; [exact Hw | repeat constructor].
    + congruence.
  - (* the write settles *)
    unfold CodeBlock.handleCopy_resume.
    destruct (CodeBlock.writing i) as [|text rest] eqn:Hwi;
      [split; try assumption; rewrite Hwi; assumption|].
    inversion Hw as [|? ? Htext Hrest]; subst.
    assert (Hshiki : CodeBlock.is_shiki className = true).
    { destruct (CodeBlock.is_shiki className); [reflexivity|].
      destruct (Hplain eq_refl) as [H _]. discriminate H. }
    destruct ok; split; simpl; try assumption; auto.
    + apply Forall_app. split; [exact Hdue|].
      repeat constructor; lia.
    + intros _ H. apply app_eq_nil in H as [_ H]. discriminate H.
    + rewrite Hshiki. discriminate.
    + rewrite Hshiki. discriminate.
  - (* time passes *)
    unfold CodeBlock.elapse.
    split; simpl; try assumption.
    + apply Forall_forall. intros due Hin. apply filter_In in Hin as [Hin Hlate].
      rewrite Forall_forall in Hdue. specialize (Hdue due Hin).
      apply negb_true_iff, N.leb_gt in Hlate. lia.
    + destruct (existsb _ (CodeBlock.timers i)) eqn:Hex; [discriminate|].
      intros Hc Hnil. specialize (Hreset Hc).
      destruct (CodeBlock.timers i) as [|due ts]; [contradiction|].
      simpl in Hex, Hnil. apply orb_false_iff in Hex as [Hex _].
      rewrite Hex in Hnil. discriminate Hnil.
    + destruct (existsb _ (CodeBlock.timers i)); [discriminate|].
      exact Hcopied.
    + intros Hs. destruct (Hplain Hs) as (Hw0 & Hc0 & Hcp0).
      rewrite Hcp0. destruct (existsb _ _); auto.
Qed.

Lemma reachable_sound (i : CodeBlock.Instance) :
  CodeBlock.reachable className textContent i ->
  CodeBlock.sound className textContent i.
Proof.
  induction 1 as [|i ev _ IH]; [exact mount_sound|].
  apply step_sound. exact IH.
Qed.

End Block.

End CodeBlockFacts.

(** X17.  The copy button is rendered exactly for a block whose class
    contains "shiki" somewhere; its label is "Copied!" or "Copy code"
    according to the state.  A block without a class, or with a class
    that does not contain "shiki", is the bare [pre]. *)
Theorem copy_button_only_on_shiki
    (className : option jsstring) (copied : bool) :
  let shiki :=
    exists before after,
      className = Some (before ++ JsString.of_string "shiki" ++ after) in
  (shiki ->
   CodeBlock.render className copied
   = CodeBlock.PreWithCopy className
       (if copied then "Copied!" else "Copy code")%string)
  /\ (~ shiki -> CodeBlock.render className copied = CodeBlock.Pre className).
Proof.
  intros shiki. subst shiki.
  unfold CodeBlock.render, CodeBlock.is_shiki, CodeBlock.isShikiBlock,
    CodeBlock.label.
  destruct className as [c|].
  - pose proof (CodeBlockFacts.includes_spec c (JsString.of_string "shiki"))
      as Hspec.
    destruct (JsStringOps.includes c (JsString.of_string "shiki")).
    + split; [intros _; reflexivity|].
      intros Hno. exfalso. apply Hno.
      destruct (proj1 Hspec eq_refl) as (before & after & ->).
      now exists before, after.
    + split; [|reflexivity].
      intros (before & after & H). injection H as ->.
      assert (false = true) by (apply Hspec; now exists before, after).
      discriminate.
  - split; [|reflexivity]. intros (before & after & H). discriminate H.
Qed.

(** X18.  The "Copied!" label always reverts: from any state the clicks,
    writes and timers can produce, 2000 ms without further events leave
    the label at "Copy code" and no reset pending. *)
Theorem copied_label_always_reverts
    (className : option jsstring) (textContent : jsstring)
    (i : CodeBlock.Instance) :
  CodeBlock.reachable className textContent i ->
  let j := CodeBlock.step className textContent i (CodeBlock.Elapse 2000) in
  CodeBlock.copied j = false /\ CodeBlock.timers j = [].
Proof.
  intros Hr j. subst j.
  destruct (CodeBlockFacts.reachable_sound Hr) as [Hdue Hreset _ _ _ _].
  simpl. rewrite Forall_forall in Hdue.
  assert (Hnone : filter (fun due => negb (due <=? CodeBlock.clock i + 2000)%N)
                         (CodeBlock.timers i) = []).
  { destruct (filter _ _) as [|due ts] eqn:Hf; [reflexivity|].
    assert (Hin : In due (due :: ts)) by (left; reflexivity).
    rewrite <- Hf in Hin. apply filter_In in Hin as [Hin Hlate].
    apply negb_true_iff, N.leb_gt in Hlate.
    specialize (Hdue due Hin). lia. }
  split; [|exact Hnone].
  destruct (CodeBlock.timers i) as [|due ts] eqn:Ht.
  - simpl. destruct (CodeBlock.copied i); [|reflexivity].
    exfalso. exact (Hreset eq_refl eq_refl).
  - simpl. specialize (Hdue due (or_introl eq_refl)).
    destruct (N.leb_spec due (CodeBlock.clock i + 2000)) as [_ | Hlt];
      [reflexivity | lia].
Qed.

Lemma copied_label_always_reverts_witness :
  let className := Some (Sample.js "shiki github-light") in
  let i := CodeBlock.run className (Sample.js "npm install") CodeBlock.mount
             [CodeBlock.Click; CodeBlock.Settle true; CodeBlock.Elapse 300] in
  CodeBlock.reachable className (Sample.js "npm install") i
  /\ CodeBlock.copied i = true
  /\ CodeBlock.copied
       (CodeBlock.step className (Sample.js "npm install") i
          (CodeBlock.Elapse 2000)) = false.
Proof.
  intros className i.
  assert (Hr : CodeBlock.reachable className (Sample.js "npm install") i)
    by (repeat constructor).
  split; [exact Hr|]. split; [reflexivity|].
  exact (proj1 (@copied_label_always_reverts className
                  (Sample.js "npm install") i Hr)).
Defined.

(** X19.  "Copied!" is shown only after a write of the block's own text to
    the clipboard has succeeded, and the clipboard is never given
    anything else; a block without the copy button never writes. *)
Theorem copied_means_text_on_clipboard
    (className : option jsstring) (textContent : jsstring)
    (i : CodeBlock.Instance) :
  CodeBlock.reachable className textContent i ->
  (CodeBlock.copied i = true -> CodeBlock.clipboard i = Some textContent)
  /\ (forall text, CodeBlock.clipboard i = Some text -> text = textContent)
  /\ Forall (eq textContent) (CodeBlock.writing i)
  /\ (CodeBlock.is_shiki className = false ->
      CodeBlock.writing i = [] /\ CodeBlock.clipboard i = None
      /\ CodeBlock.copied i = false).
Proof.
  intros Hr.
  destruct (CodeBlockFacts.reachable_sound Hr)
    as [_ _ Hw Hclip Hcopied Hplain].
  split; [exact Hcopied|]. split; [|split; assumption].
  intros text Ht. destruct Hclip as [H | H]; congruence.
Qed.

Lemma copied_means_text_on_clipboard_witness :
  let className := Some (Sample.js "shiki github-light") in
  let i := CodeBlock.run className (Sample.js "npm install") CodeBlock.mount
             [CodeBlock.Click; CodeBlock.Click; CodeBlock.Settle false;
              CodeBlock.Settle true] in
  CodeBlock.reachable className (Sample.js "npm install") i
  /\ CodeBlock.copied i = true
  /\ CodeBlock.clipboard i = Some (Sample.js "npm install").
Proof.
  intros className i.
  assert (Hr : CodeBlock.reachable className (Sample.js "npm install") i)
    by (repeat constructor).
  split; [exact Hr|]. split; [reflexivity|].
  exact (proj1 (@copied_means_text_on_clipboard className
                  (Sample.js "npm install") i Hr) eq_refl).
Defined.

Module CodeBlockTraces.

Section Block.

Variable className : option jsstring.
Variable textContent : jsstring.

Lemma run_cons (i : CodeBlock.Instance) (ev : CodeBlock.Event)
    (trace : list CodeBlock.Event) :
  CodeBlock.run className textContent i (ev :: trace)
  = CodeBlock.run className textContent
      (CodeBlock.step className textContent i ev) trace.
Proof. reflexivity. Qed.

(** As long as no write succeeds, nothing is shown as copied and every
    click is either still pending or logged as an error. *)
Lemma failures_only (trace : list CodeBlock.Event) :
  forall i,
    Forall (fun ev => ev <> CodeBlock.Settle true) trace ->
    CodeBlock.copied i = false -> CodeBlock.clipboard i = None ->
    CodeBlock.timers i = [] ->
    let j := CodeBlock.run className textContent i trace in
    CodeBlock.copied j = false /\ CodeBlock.clipboard j = None
    /\ CodeBlock.timers j = []
    /\ (CodeBlock.errors j + length (CodeBlock.writing j)
        = CodeBlock.errors i + length (CodeBlock.writing i)
          + (if CodeBlock.is_shiki className then CodeBlock.clicks trace
             else 0))%nat.
Proof.
  induction trace as [|ev trace IH]; intros i Hno Hc Hclip Ht; cbv zeta.
  - simpl. repeat split; try assumption.
    unfold CodeBlock.clicks. simpl. destruct (CodeBlock.is_shiki className); lia.
  - inversion Hno as [|? ? Hev Hrest]; subst. rewrite run_cons.
    destruct ev as [ | ok | ms].
    + (* click *)
      simpl CodeBlock.step. unfold CodeBlock.handleCopy_start.
      destruct (CodeBlock.is_shiki className) eqn:Hs.
      * match goal with
        | |- context [CodeBlock.run _ _ ?x trace] =>
            destruct (IH x Hrest Hc Hclip Ht) as (H1 & H2 & H3 & H4)
        end.
        cbn [CodeBlock.writing CodeBlock.errors] in H4.
        rewrite length_app in H4. simpl in H4.
        repeat split; try assumption.
        rewrite H4. unfold CodeBlock.clicks. simpl. lia.
      * destruct (IH i Hrest Hc Hclip Ht) as (H1 & H2 & H3 & H4).
        repeat split; try assumption.
    + (* a write fails *)
      destruct ok; [contradiction Hev; reflexivity|].
      simpl CodeBlock.step. unfold CodeBlock.handleCopy_resume.
      destruct (CodeBlock.writing i) as [|text rest] eqn:Hw.
      * destruct (IH i Hrest Hc Hclip Ht) as (H1 & H2 & H3 & H4).
        rewrite Hw in H4.
        repeat split; try assumption.
      * destruct (IH {| CodeBlock.copied := CodeBlock.copied i;
                        CodeBlock.clock := CodeBlock.clock i;
                        CodeBlock.timers := CodeBlock.timers i;
                        CodeBlock.writing := rest;
                        CodeBlock.clipboard := CodeBlock.clipboard i;
                        CodeBlock.errors := S (CodeBlock.errors i) |}
                     Hrest Hc Hclip Ht) as (H1 & H2 & H3 & H4).
        repeat split; try assumption.
        rewrite H4. unfold CodeBlock.clicks. simpl. lia.
    + (* time passes *)
      simpl CodeBlock.step. unfold CodeBlock.elapse. rewrite Ht, Hc. simpl.
      destruct (IH {| CodeBlock.copied := false;
                      CodeBlock.clock := (CodeBlock.clock i + ms)%N;
                      CodeBlock.timers := [];
                      CodeBlock.writing := CodeBlock.writing i;
                      CodeBlock.clipboard := CodeBlock.clipboard i;
                      CodeBlock.errors := CodeBlock.errors i |}
                   Hrest eq_refl Hclip eq_refl) as (H1 & H2 & H3 & H4).
      repeat split; try assumption.
Qed.

End Block.

End CodeBlockTraces.

(** X20.  A failed clipboard write changes nothing that is shown: as long as
    no write succeeds the label stays "Copy code", the clipboard is
    untouched and no timer is set; each click on a block with the
    button is then either still pending or logged as one error. *)
Theorem failed_copy_shows_nothing
    (className : option jsstring) (textContent : jsstring)
    (trace : list CodeBlock.Event) :
  Forall (fun ev => ev <> CodeBlock.Settle true) trace ->
  let j := CodeBlock.run className textContent CodeBlock.mount trace in
  CodeBlock.copied j = false
  /\ CodeBlock.clipboard j = None
  /\ CodeBlock.timers j = []
  /\ (CodeBlock.errors j + length (CodeBlock.writing j)
      = if CodeBlock.is_shiki className then CodeBlock.clicks trace else 0)%nat.
Proof.
  intros Hno.
  exact (@CodeBlockTraces.failures_only className textContent trace
           CodeBlock.mount Hno eq_refl eq_refl eq_refl).
Qed.

Lemma failed_copy_shows_nothing_witness :
  let className := Some (Sample.js "shiki github-light") in
  let trace := [CodeBlock.Click; CodeBlock.Settle false; CodeBlock.Click;
                CodeBlock.Elapse 5000; CodeBlock.Settle false] in
  Forall (fun ev => ev <> CodeBlock.Settle true) trace
  /\ CodeBlock.errors
       (CodeBlock.run className (Sample.js "npm install") CodeBlock.mount trace)
     = 2%nat.
Proof.
  intros className trace.
  assert (Hno : Forall (fun ev => ev <> CodeBlock.Settle true) trace)
    by (repeat constructor; discriminate).
  split; [exact Hno|].
  pose proof (proj2 (proj2 (proj2
    (@failed_copy_shows_nothing className (Sample.js "npm install")
       trace Hno)))) as H.
  exact H.
Defined.

(** X21.  The resets are not cancelled by a later copy: when a second copy
    succeeds [a] ms after the first (0 < a < 2000), the label reverts to
    "Copy code" when the first reset comes due, [2000 - a] ms after the
    second copy, while the reset of the second copy is still pending. *)
Theorem second_copy_reverts_early
    (className : option jsstring) (textContent : jsstring)
    (i : CodeBlock.Instance) (a : N) :
  CodeBlock.is_shiki className = true ->
  CodeBlock.timers i = [] -> CodeBlock.writing i = [] ->
  (0 < a < 2000)%N ->
  let copy := [CodeBlock.Click; CodeBlock.Settle true] in
  let second := CodeBlock.run className textContent i
                  (copy ++ [CodeBlock.Elapse a] ++ copy) in
  let j := CodeBlock.step className textContent second
             (CodeBlock.Elapse (2000 - a)) in
  CodeBlock.copied second = true
  /\ CodeBlock.copied j = false
  /\ CodeBlock.clock j = (CodeBlock.clock second + (2000 - a))%N
  /\ CodeBlock.timers j = [(CodeBlock.clock second + 2000)%N]
  /\ CodeBlock.clipboard j = Some textContent.
Proof.
  intros Hs Ht Hw Ha copy second j. subst copy second j.
  destruct i as [cp c ts w cb er]. simpl in Ht, Hw. subst ts w.
  assert (Hb : (a + (2000 - a) = 2000)%N) by lia.
  revert Hb. generalize (2000 - a)%N. intros b Hb.
  cbv [CodeBlock.run fold_left app CodeBlock.step
       CodeBlock.handleCopy_start CodeBlock.handleCopy_resume CodeBlock.elapse].
  rewrite !Hs.
  cbn [CodeBlock.copied CodeBlock.clock CodeBlock.timers CodeBlock.writing
       CodeBlock.clipboard CodeBlock.errors app existsb filter].
  destruct (N.leb_spec (c + 2000) (c + a)) as [Hle | _]; [lia|].
  cbn [negb orb app existsb filter].
  destruct (N.leb_spec (c + 2000) (c + a + b)) as [_ | Hlt]; [|lia].
  destruct (N.leb_spec (c + a + 2000) (c + a + b)) as [Hle | _]; [lia|].
  cbn [negb orb]. repeat split.
Qed.

Lemma second_copy_reverts_early_witness :
  let className := Some (Sample.js "shiki github-light") in
  let trace := [CodeBlock.Click; CodeBlock.Settle true;
                CodeBlock.Elapse 1500;
                CodeBlock.Click; CodeBlock.Settle true;
                CodeBlock.Elapse 500] in
  (CodeBlock.is_shiki className = true /\ (0 < 1500 < 2000)%N)
  /\ CodeBlock.copied
       (CodeBlock.run className (Sample.js "npm install") CodeBlock.mount trace)
     = false.
Proof.
  intros className trace.
  assert (Ha : (0 < 1500 < 2000)%N) by (split; reflexivity).
  split; [split; [reflexivity | exact Ha]|].
  exact (proj1 (proj2
    (@second_copy_reverts_early className (Sample.js "npm install")
       CodeBlock.mount 1500%N eq_refl eq_refl eq_refl Ha))).
Defined.

(* ================================================================== *)
(** * The Giscus embed *)

Module GiscusFacts.

Lemma same_deps_eq (a b : list jsstring) :
  Giscus.same_deps a b = true -> a = b.
Proof.
  revert b. induction a as [|x a IH]; intros [|y b]; simpl;
    try discriminate; [reflexivity|].
  intros H. apply andb_true_iff in H as [Hxy Hab].
  apply JsStringFacts.eqb_eq in Hxy. rewrite Hxy, (IH b Hab). reflexivity.
Qed.

(** The script is determined by the dependencies of the effect. *)
Lemma script_of_deps (p q : Giscus.Props) :
  Giscus.deps p = Giscus.deps q -> Giscus.script_of p = Giscus.script_of q.
Proof.
  unfold Giscus.deps, Giscus.script_of. intros H.
  injection H as -> -> -> -> -> ->. reflexivity.
Qed.

Lemma scripts_app (u v : list Giscus.Node) :
  Giscus.scripts (u ++ v) = Giscus.scripts u ++ Giscus.scripts v.
Proof. unfold Giscus.scripts. apply flat_map_app. Qed.

Lemma step_one_script (i : Giscus.Instance) (ev : Giscus.Event) :
  Giscus.scripts (Giscus.container i) = [Giscus.script_of (Giscus.props i)] ->
  let j := Giscus.step i ev in
  Giscus.scripts (Giscus.container j) = [Giscus.script_of (Giscus.props j)].
Proof.
  intros Hi. cbv zeta. destruct ev as [p | html]; unfold Giscus.step.
  - destruct (Giscus.same_deps (Giscus.deps (Giscus.props i)) (Giscus.deps p))
      eqn:Hd; cbn [Giscus.container Giscus.props].
    + rewrite Hi. f_equal. apply script_of_deps, same_deps_eq. exact Hd.
    + reflexivity.
  - cbn [Giscus.container Giscus.props]. rewrite scripts_app, Hi. reflexivity.
Qed.

End GiscusFacts.

(** X22.  However often the embed is rendered again, with the same or
    with other props, and whatever the loaded client puts into the
    container besides, the container holds exactly one giscus script,
    and it is the script for the current props (with "pathname" and
    "light" for a missing mapping and theme): changed props replace the
    old script, they do not add to it. *)
Theorem giscus_keeps_one_script
    (p : Giscus.Props) (trace : list Giscus.Event) :
  let i := Giscus.run (Giscus.mount p) trace in
  Giscus.scripts (Giscus.container i) = [Giscus.script_of (Giscus.props i)].
Proof.
  cbv zeta.
  assert (Hgen : forall i,
            Giscus.scripts (Giscus.container i)
            = [Giscus.script_of (Giscus.props i)] ->
            Giscus.scripts (Giscus.container (Giscus.run i trace))
            = [Giscus.script_of (Giscus.props (Giscus.run i trace))]).
  { induction trace as [|ev trace IH]; intros i Hi; [exact Hi|].
    apply (IH (Giscus.step i ev)).
    apply GiscusFacts.step_one_script. exact Hi. }
  apply Hgen. reflexivity.
Qed.
